(** * Administrative-division resolver of flomo-mcp ([src/gaode.ts])

    A shallow embedding of the city table loader, the tier classifier, the
    parent resolver, the name composer and the query engine, and of the
    resource handlers and the argument parsing of the server ([index.ts])
    that use them, followed by the properties of the specification that
    concern them and by further properties read off the code.

    JavaScript strings are sequences of UTF-16 code units; they are modelled
    as lists of code units ([N]), so that [substring], [startsWith],
    [endsWith], [includes], [split] and [trim] count exactly what the
    engine counts. *)

From Stdlib Require Import String Ascii.
From Stdlib Require Import List NArith Arith Bool Lia.
Import ListNotations.

Set Implicit Arguments.

(** ** JavaScript strings *)

Module JS.

Definition char := N.
Definition str := list char.

(** An ASCII literal of the source, as code units. *)
Definition lit (s : string) : str :=
  List.map N_of_ascii (list_ascii_of_string s).

(** [a === b] on strings. *)
Fixpoint eqb (a b : str) : bool :=
  match a, b with
  | [], [] => true
  | x :: a', y :: b' => N.eqb x y && eqb a' b'
  | _, _ => false
  end.

(** [s.substring(i, j)]: both indices are clamped to the length and
    swapped when out of order. *)
Definition substring (i j : nat) (s : str) : str :=
  let a := Nat.min i (length s) in
  let b := Nat.min j (length s) in
  let lo := Nat.min a b in
  let hi := Nat.max a b in
  firstn (hi - lo) (skipn lo s).

(** [s.startsWith(t)] *)
Definition startsWith (s t : str) : bool :=
  if length t <=? length s then eqb (firstn (length t) s) t else false.

(** [s.endsWith(t)] *)
Definition endsWith (s t : str) : bool :=
  if length t <=? length s then eqb (skipn (length s - length t) s) t
  else false.

(** [s.includes(t)]: [t] occurs at some position of [s]. *)
Fixpoint includes (s t : str) : bool :=
  startsWith s t ||
  match s with
  | [] => false
  | _ :: s' => includes s' t
  end.

(** White space and line terminators, the code units [trim] strips. *)
Definition isWhiteSpace (c : char) : bool :=
  (((9 <=? c) && (c <=? 13)) || (c =? 32) || (c =? 160) || (c =? 5760) ||
   ((8192 <=? c) && (c <=? 8202)) || (c =? 8232) || (c =? 8233) ||
   (c =? 8239) || (c =? 8287) || (c =? 12288) || (c =? 65279))%N.

Fixpoint trimStart (s : str) : str :=
  match s with
  | [] => []
  | c :: s' => if isWhiteSpace c then trimStart s' else s
  end.

Definition trimEnd (s : str) : str := rev (trimStart (rev s)).

(** [s.trim()] *)
Definition trim (s : str) : str := trimEnd (trimStart s).

(** [s.split(sep)] for a separator of one code unit, which is all the
    source uses ([","] and ["\n"]). *)
Fixpoint split (sep : char) (s : str) : list str :=
  match s with
  | [] => [[]]
  | c :: s' =>
      if N.eqb c sep then [] :: split sep s'
      else match split sep s' with
           | [] => [[c]]
           | f :: fs => (c :: f) :: fs
           end
  end.

(** Truthiness of a string: only the empty string is falsy. *)
Definition truthy (s : str) : bool :=
  match s with [] => false | _ :: _ => true end.

End JS.

Definition comma : JS.char := 44%N.
Definition newline : JS.char := 10%N.

(** The one-character suffix that marks a county-level city (U+5E02). *)
Definition shi : JS.str := [24066%N].

(** ** Records and tiers *)

Record CityInfo : Type := mkCityInfo {
  name : JS.str;
  adcode : JS.str;
  citycode : JS.str
}.

Inductive AdminLevel : Type := Province | City | District.

Definition AdminLevel_eqb (a b : AdminLevel) : bool :=
  match a, b with
  | Province, Province | City, City | District, District => true
  | _, _ => false
  end.

(** [getAdminLevel] (gaode.ts, lines 61-69) *)
Definition getAdminLevel (adcode : JS.str) : AdminLevel :=
  if JS.endsWith adcode (JS.lit "0000") then Province
  else if JS.endsWith adcode (JS.lit "00") then City
  else District.

(** ** Parent resolution *)

(** [findProvince] (lines 77-80) *)
Definition findProvince (adcode_ : JS.str) (allCities : list CityInfo)
  : option CityInfo :=
  let provinceCode := JS.substring 0 2 adcode_ ++ JS.lit "0000" in
  find (fun c => JS.eqb (adcode c) provinceCode) allCities.

(** [findCity] (lines 88-91) *)
Definition findCity (adcode_ : JS.str) (allCities : list CityInfo)
  : option CityInfo :=
  let cityCode := JS.substring 0 4 adcode_ ++ JS.lit "00" in
  find (fun c => JS.eqb (adcode c) cityCode) allCities.

(** [Array.prototype.includes] on an array of strings. *)
Definition array_includes (xs : list JS.str) (x : JS.str) : bool :=
  existsb (fun y => JS.eqb y x) xs.

(** [isMunicipality] (lines 98-102) *)
Definition isMunicipality (cityInfo : CityInfo) : bool :=
  let municipalities :=
    [JS.lit "110000"; JS.lit "120000"; JS.lit "310000"; JS.lit "500000"] in
  array_includes municipalities (adcode cityInfo).

(** [isCountyLevelCity] (lines 109-113) *)
Definition isCountyLevelCity (cityInfo : CityInfo) : bool :=
  let level := getAdminLevel (adcode cityInfo) in
  AdminLevel_eqb level District && JS.endsWith (name cityInfo) shi.

(** ** Name composition *)

(** [buildFullName] (lines 121-163). An absent [province] or [city] is
    falsy, a found record is truthy. *)
Definition buildFullName (cityInfo : CityInfo) (allCities : list CityInfo)
  : JS.str :=
  let level := getAdminLevel (adcode cityInfo) in
  if AdminLevel_eqb level Province then name cityInfo
  else
    let province := findProvince (adcode cityInfo) allCities in
    if AdminLevel_eqb level City then
      match province with
      | Some p =>
          if negb (isMunicipality p) then name p ++ name cityInfo
          else name cityInfo
      | None => name cityInfo
      end
    else if isCountyLevelCity cityInfo then
      match province with
      | Some p => name p ++ name cityInfo
      | None => name cityInfo
      end
    else
      let city := findCity (adcode cityInfo) allCities in
      match province, city with
      | Some p, _ =>
          if isMunicipality p then name p ++ name cityInfo
          else match city with
               | Some c => name p ++ name c ++ name cityInfo
               | None => name p ++ name cityInfo
               end
      | None, _ => name cityInfo
      end.

(** ** District enumeration *)

(** [findDistrictsInProvince] (lines 171-177) *)
Definition findDistrictsInProvince (provinceCode : JS.str)
  (allCities : list CityInfo) : list CityInfo :=
  filter (fun c =>
            let level := getAdminLevel (adcode c) in
            AdminLevel_eqb level District &&
            JS.startsWith (adcode c) provinceCode) allCities.

(** [findDistrictsInCity] (lines 185-191) *)
Definition findDistrictsInCity (cityCode : JS.str)
  (allCities : list CityInfo) : list CityInfo :=
  filter (fun c =>
            let level := getAdminLevel (adcode c) in
            AdminLevel_eqb level District &&
            JS.startsWith (adcode c) cityCode) allCities.

(** ** Exceptions *)

Inductive error : Type :=
| IOError      (* thrown by [fs.readFileSync] *)
| TypeError.   (* a method called on [undefined] *)

Inductive outcome (A : Type) : Type :=
| Returned (a : A)
| Thrown (e : error).

Arguments Returned {A} a.
Arguments Thrown {A} e.

Definition bind {A B : Type} (c : outcome A) (k : A -> outcome B)
  : outcome B :=
  match c with
  | Returned a => k a
  | Thrown e => Thrown e
  end.

Notation "x <- c ;; k" := (bind c (fun x => k))
  (at level 61, c at next level, right associativity).

(** [xs.map(f)] where the callback may throw: elements are visited in
    order and the first exception aborts the whole call. *)
Fixpoint array_map {A B : Type} (f : A -> outcome B) (xs : list A)
  : outcome (list B) :=
  match xs with
  | [] => Returned []
  | x :: xs' =>
      y <- f x ;;
      ys <- array_map f xs' ;;
      Returned (y :: ys)
  end.

(** [v.trim()] where [v] may be [undefined]. *)
Definition call_trim (v : option JS.str) : outcome JS.str :=
  match v with
  | Some s => Returned (JS.trim s)
  | None => Thrown TypeError
  end.

(** ** Table loader *)

(** The callback of [dataLines.map] (lines 50-53): array destructuring
    binds a missing position to [undefined]. *)
Definition parseLine (line : JS.str) : outcome CityInfo :=
  let fields := JS.split comma line in
  let name_ := nth_error fields 0 in
  let adcode_ := nth_error fields 1 in
  let citycode_ := nth_error fields 2 in
  n <- call_trim name_ ;;
  a <- call_trim adcode_ ;;
  c <- call_trim citycode_ ;;
  Returned (mkCityInfo n a c).

(** [loadCityData] (lines 40-54). The argument is what
    [fs.readFileSync(csvPath, "utf-8")] does: it returns the decoded
    content or throws. *)
Definition loadCityData (readFileSync : outcome JS.str)
  : outcome (list CityInfo) :=
  content <- readFileSync ;;
  let lines := JS.split newline content in
  let dataLines :=
    filter (fun line => JS.truthy (JS.trim line)) (skipn 1 lines) in
  array_map parseLine dataLines.

(** ** Query engine *)

(** The body of [getCity] once the table is loaded (line 195). *)
Definition getCityFrom (allCities : list CityInfo) (adcode_ : JS.str)
  : option CityInfo :=
  find (fun c => JS.eqb (adcode c) adcode_) allCities.

(** [getCity] (lines 193-196) *)
Definition getCity (readFileSync : outcome JS.str) (adcode_ : JS.str)
  : outcome (option CityInfo) :=
  allCities <- loadCityData readFileSync ;;
  Returned (getCityFrom allCities adcode_).

(** The optional argument of [listCity]: [string | null | undefined]. *)
Inductive query : Type :=
| Undefined
| Null
| Str (s : JS.str).

(** [city || ""]: [undefined], [null] and the empty string are falsy. *)
Definition or_empty (city : query) : JS.str :=
  match city with
  | Str s => if JS.truthy s then s else JS.lit ""
  | Undefined | Null => JS.lit ""
  end.

(** The [for ... of] loop of [listCity] (lines 212-238), threading
    [expandedMatches]; [break] leaves the loop with the array as it is. *)
Fixpoint expandLoop (matches allCities expandedMatches : list CityInfo)
  : list CityInfo :=
  match matches with
  | [] => expandedMatches
  | match_ :: rest =>
      let level := getAdminLevel (adcode match_) in
      let expandedMatches' :=
        if AdminLevel_eqb level Province then
          let districts :=
            findDistrictsInProvince (JS.substring 0 2 (adcode match_))
                                    allCities in
          expandedMatches ++ districts
        else if AdminLevel_eqb level City then
          let districts :=
            findDistrictsInCity (JS.substring 0 4 (adcode match_))
                                allCities in
          if 0 <? length districts then expandedMatches ++ districts
          else expandedMatches ++ [match_]
        else expandedMatches ++ [match_] in
      if 10 <=? length expandedMatches' then expandedMatches'
      else expandLoop rest allCities expandedMatches'
  end.

(** [expandedMatches] when the loop is left (lines 207-238). *)
Definition expandedMatchesOf (allCities : list CityInfo) (city : query)
  : list CityInfo :=
  let matches :=
    filter (fun c => JS.includes (name c) (or_empty city)) allCities in
  expandLoop matches allCities [].

(** The body of [listCity] once the table is loaded (lines 207-248). *)
Definition listCityFrom (allCities : list CityInfo) (city : query)
  : list CityInfo :=
  let expandedMatches := expandedMatchesOf allCities city in
  let limitedMatches := firstn 100 expandedMatches in
  List.map (fun match_ =>
              mkCityInfo (buildFullName match_ allCities)
                         (adcode match_) (citycode match_))
           limitedMatches.

(** [listCity] (lines 203-249) *)
Definition listCity (readFileSync : outcome JS.str) (city : query)
  : outcome (list CityInfo) :=
  allCities <- loadCityData readFileSync ;;
  Returned (listCityFrom allCities city).

(** * The server ([index.ts])

    The handlers are [async] functions: what they return fulfils the
    promise, what they throw rejects it. *)

Definition colon : JS.char := 58%N.
Definition equals : JS.char := 61%N.

(** [s.split(sep)] for a non-empty separator string: the string is
    scanned from the left; where the separator occurs the piece read so far
    ([cur], in reverse) is closed and the scan resumes behind the
    occurrence ([skip] counts the code units of it still to pass). *)
Fixpoint splitOn (sep : JS.str) (skip : nat) (cur s : JS.str)
  : list JS.str :=
  match s with
  | [] => [rev cur]
  | c :: s' =>
      match skip with
      | S k => splitOn sep k cur s'
      | O =>
          if JS.startsWith s sep
          then rev cur :: splitOn sep (length sep - 1) [] s'
          else splitOn sep 0 (c :: cur) s'
      end
  end.

Definition splitString (sep s : JS.str) : list JS.str :=
  splitOn sep 0 [] s.

(** What a handler throws: an exception of the resolver passing through,
    or [new Error(message)]. *)
Inductive exception : Type :=
| Raised (e : error)
| ErrorWith (message : JS.str).

Inductive promise (A : Type) : Type :=
| Fulfilled (a : A)
| Rejected (e : exception).

Arguments Fulfilled {A} a.
Arguments Rejected {A} e.

(** An entry of [resources] in the answer to a list request. *)
Record Resource : Type := mkResource {
  res_name : JS.str;
  res_description : JS.str;
  res_uri : JS.str;
  res_mimeType : JS.str
}.

(** An entry of [contents] in the answer to a read request. *)
Record Content : Type := mkContent {
  con_uri : JS.str;
  con_mimeType : JS.str;
  con_text : JS.str
}.

(** The handler of [ListResourcesRequestSchema] (lines 308-318); its
    answer is the array [resources]. *)
Definition listResourcesHandler (readFileSync : outcome JS.str)
  : promise (list Resource) :=
  match listCity readFileSync Undefined with
  | Thrown e => Rejected (Raised e)
  | Returned cities =>
      Fulfilled
        (List.map (fun city =>
                     mkResource (name city) (name city)
                                (JS.lit "city://" ++ adcode city)
                                (JS.lit "text/plain"))
                  cities)
  end.

(** [getCity(adcode)] where [adcode] may be [undefined]: no code of the
    table, a string, is strictly equal to [undefined]. *)
Definition getCityOf (readFileSync : outcome JS.str)
  (adcode_ : option JS.str) : outcome (option CityInfo) :=
  match adcode_ with
  | Some a => getCity readFileSync a
  | None => allCities <- loadCityData readFileSync ;; Returned None
  end.

(** The handler of [ReadResourceRequestSchema] (lines 321-334); its
    answer is the array [contents]. *)
Definition readResourceHandler (readFileSync : outcome JS.str)
  (uri : JS.str) : promise (list Content) :=
  let adcode_ := nth_error (splitString (JS.lit "://") uri) 1 in
  match getCityOf readFileSync adcode_ with
  | Thrown e => Rejected (Raised e)
  | Returned None => Rejected (ErrorWith (JS.lit "City not found"))
  | Returned (Some city) =>
      Fulfilled
        [mkContent (JS.lit "city://" ++ adcode city)
                   (JS.lit "text/plain")
                   (JS.lit "city: " ++ name city ++ JS.lit " adcode: " ++
                    adcode city)]
  end.

(** The object [args] of [parseArgs]: its own properties in creation
    order, each a string or [undefined]. *)
Definition jsobject : Type := list (JS.str * option JS.str).

Fixpoint obj_set (key : JS.str) (value : option JS.str) (o : jsobject)
  : jsobject :=
  match o with
  | [] => [(key, value)]
  | (k, v) :: o' =>
      if JS.eqb k key then (k, value) :: o'
      else (k, v) :: obj_set key value o'
  end.

(** [o[key] = value]. Assigning a string or [undefined] to ["__proto__"]
    goes to the setter inherited from [Object.prototype], which ignores
    it: no property is created. *)
Definition obj_assign (key : JS.str) (value : option JS.str) (o : jsobject)
  : jsobject :=
  if JS.eqb key (JS.lit "__proto__") then o else obj_set key value o.

(** [o.key] for a key that [Object.prototype] does not define: the own
    property, [undefined] when there is none. *)
Definition obj_get (o : jsobject) (key : JS.str) : option JS.str :=
  match find (fun kv => JS.eqb (fst kv) key) o with
  | Some (_, v) => v
  | None => None
  end.

(** [parseArgs] (lines 438-449) on [process.argv]. *)
Definition parseArgs (argv : list JS.str) : jsobject :=
  fold_left
    (fun args arg =>
       if JS.startsWith arg (JS.lit "--") then
         match JS.split equals (skipn 2 arg) with
         | key :: rest => obj_assign key (nth_error rest 0) args
         | [] => args
         end
       else args)
    (skipn 2 argv) [].

(** [a || b] on values that are a string or [undefined]. *)
Definition or_else (a b : option JS.str) : option JS.str :=
  match a with
  | Some s => if JS.truthy s then a else b
  | None => b
  end.

(** [apiUrl] (lines 451-452):
    [args.flomo_api_url || process.env.FLOMO_API_URL || ""]. *)
Definition apiUrl (argv : list JS.str) (env : JS.str -> option JS.str)
  : JS.str :=
  let args := parseArgs argv in
  match or_else (or_else (obj_get args (JS.lit "flomo_api_url"))
                         (env (JS.lit "FLOMO_API_URL")))
                (Some (JS.lit "")) with
  | Some s => s
  | None => JS.lit ""
  end.

(** * Vocabulary of the specification *)

(** [s] ends in [t]: the meaning of [endsWith] as a relation. *)
Definition EndsIn (s t : JS.str) : Prop := exists p, s = p ++ t.

(** [s] begins with [t]. *)
Definition BeginsWith (s t : JS.str) : Prop := exists q, s = t ++ q.

(** A well-formed administrative code: six decimal digits. *)
Definition isDigit (c : JS.char) : bool := ((48 <=? c) && (c <=? 57))%N.

Definition validCode (code : JS.str) : Prop :=
  length code = 6 /\ forallb isDigit code = true.

(** No record of the table [T] carries the code [k]. *)
Definition Absent (T : list CityInfo) (k : JS.str) : Prop :=
  forall c, In c T -> adcode c <> k.

(** [p] is the first record of the table [T], in table order, whose code
    is [k]. *)
Definition FirstWithCode (T : list CityInfo) (k : JS.str) (p : CityInfo)
  : Prop :=
  exists T1 T2,
    T = T1 ++ p :: T2 /\ adcode p = k /\
    forall c, In c T1 -> adcode c <> k.

(** The code of the parent province: the first two code units followed by
    "0000". *)
Definition provinceCodeOf (code : JS.str) : JS.str :=
  firstn 2 code ++ JS.lit "0000".

(** The code of the parent city: the first four code units followed by
    "00". *)
Definition cityCodeOf (code : JS.str) : JS.str :=
  firstn 4 code ++ JS.lit "00".

(** The four directly governed municipalities. *)
Definition Municipality (p : CityInfo) : Prop :=
  In (adcode p)
     [JS.lit "110000"; JS.lit "120000"; JS.lit "310000"; JS.lit "500000"].

(** [l1] is an initial segment of [l2]. *)
Definition Prefix {A : Type} (l1 l2 : list A) : Prop :=
  exists k, l2 = l1 ++ k.

(** [s] contains [t] as a substring. *)
Definition Contains (s t : JS.str) : Prop :=
  exists a b, s = a ++ t ++ b.

(** A district-tier record whose code starts with [prefix]. *)
Definition isDistrictUnder (prefix : JS.str) (c : CityInfo) : bool :=
  AdminLevel_eqb (getAdminLevel (adcode c)) District &&
  JS.startsWith (adcode c) prefix.

(** What one match contributes to the search, in the words of the
    specification: a province gives its districts (possibly none), a city
    gives its districts or else itself, a district gives itself. *)
Definition expansionOf (T : list CityInfo) (m : CityInfo) : list CityInfo :=
  match getAdminLevel (adcode m) with
  | Province => filter (isDistrictUnder (firstn 2 (adcode m))) T
  | City =>
      match filter (isDistrictUnder (firstn 4 (adcode m))) T with
      | [] => [m]
      | ds => ds
      end
  | District => [m]
  end.

(** The records whose name contains the query text, in table order. *)
Definition matchesOf (T : list CityInfo) (q : JS.str) : list CityInfo :=
  filter (fun c => JS.includes (name c) q) T.

(** A record with its name replaced by its composed full name. *)
Definition composed (T : list CityInfo) (m : CityInfo) : CityInfo :=
  mkCityInfo (buildFullName m T) (adcode m) (citycode m).

(** The full expanded, composed table: every record expanded, in table
    order, and every resulting record composed. *)
Definition fullExpansion (T : list CityInfo) : list CityInfo :=
  List.map (composed T) (flat_map (expansionOf T) T).

(** The record a data line stands for when it has three fields or more:
    the first three fields, trimmed. *)
Definition recordOfLine (line : JS.str) : CityInfo :=
  let fields := JS.split comma line in
  mkCityInfo (JS.trim (nth 0 fields [])) (JS.trim (nth 1 fields []))
             (JS.trim (nth 2 fields [])).

(** The data lines of a source text: all lines but the first, blank lines
    removed. *)
Definition dataLinesOf (content : JS.str) : list JS.str :=
  filter (fun line => JS.truthy (JS.trim line))
         (skipn 1 (JS.split newline content)).

(** A field that the source text can carry as it is: no separator inside
    and no white space at either end. *)
Definition CleanField (f : JS.str) : Prop :=
  ~ In comma f /\ ~ In newline f /\ JS.trim f = f.

Definition CleanRecord (r : CityInfo) : Prop :=
  CleanField (name r) /\ CleanField (adcode r) /\ CleanField (citycode r).

(** The line of the source text for a record, and the source text for a
    table below a header line. *)
Definition lineOf (r : CityInfo) : JS.str :=
  name r ++ comma :: adcode r ++ comma :: citycode r.

Definition sourceOf (hdr : JS.str) (T : list CityInfo) : JS.str :=
  hdr ++ newline :: flat_map (fun r => lineOf r ++ [newline]) T.

(** * Sample data

    The records used by the examples of the specification, with their names
    as UTF-16 code units, and a county-level city with its prefecture. *)

Module Sample.

Definition beijing : CityInfo :=
  mkCityInfo [21271; 20140; 24066]%N (JS.lit "110000") (JS.lit "010").
Definition dongcheng : CityInfo :=
  mkCityInfo [19996; 22478; 21306]%N (JS.lit "110101") (JS.lit "010").
Definition zhejiang : CityInfo :=
  mkCityInfo [27993; 27743; 30465]%N (JS.lit "330000") (JS.lit "").
Definition hangzhou : CityInfo :=
  mkCityInfo [26477; 24030; 24066]%N (JS.lit "330100") (JS.lit "0571").
Definition xihu : CityInfo :=
  mkCityInfo [35199; 28246; 21306]%N (JS.lit "330106") (JS.lit "0571").
Definition jinhua : CityInfo :=
  mkCityInfo [37329; 21326; 24066]%N (JS.lit "330700") (JS.lit "0579").
Definition yiwu : CityInfo :=
  mkCityInfo [20041; 20044; 24066]%N (JS.lit "330782") (JS.lit "0579").

Definition table : list CityInfo :=
  [beijing; dongcheng; zhejiang; hangzhou; xihu; jinhua; yiwu].

(** The source text of [table]. *)
Definition header : JS.str := JS.lit "name,adcode,citycode".

Definition csvLine (r : CityInfo) : JS.str :=
  name r ++ [comma] ++ adcode r ++ [comma] ++ citycode r ++ [newline].

Definition csv : JS.str := header ++ [newline] ++ flat_map csvLine table.

(** A province with eleven districts, followed by other records. *)
Definition guangdong : CityInfo :=
  mkCityInfo [24191; 19996; 30465]%N (JS.lit "440000") (JS.lit "").

Definition digit (n : nat) : JS.char := (48 + N.of_nat n)%N.

Definition district (n : nat) : CityInfo :=
  mkCityInfo (JS.lit "D" ++ [digit (n / 10); digit (n mod 10)])
             (JS.lit "4401" ++ [digit (n / 10); digit (n mod 10)])
             (JS.lit "020").

Definition bigTable : list CityInfo :=
  guangdong :: List.map district (seq 1 11) ++ [beijing; dongcheng].

(** A source with a four-field line whose code is not numeric, a blank
    line, and a line with an empty third field. *)
Definition messyCsv : JS.str :=
  header ++ [newline] ++ JS.lit "x, abc ,010,zz" ++ [newline] ++
  JS.lit "  " ++ [newline] ++ JS.lit "y,12," ++ [newline].

(** A source with a two-field data line. *)
Definition shortCsv : JS.str :=
  header ++ [newline] ++ JS.lit "x,110000" ++ [newline].

End Sample.

(** * Properties *)

(** ** Strings *)

Lemma JS_eqb_eq (a b : JS.str) : JS.eqb a b = true <-> a = b.
Proof.
  revert b; induction a as [|x a IH]; intros [|y b]; simpl;
    try (split; [discriminate | discriminate]); try tauto.
  rewrite andb_true_iff, N.eqb_eq, IH. split.
  - intros [-> ->]; reflexivity.
  - intros E; injection E; auto.
Qed.

Lemma JS_eqb_refl (a : JS.str) : JS.eqb a a = true.
Proof. apply JS_eqb_eq; reflexivity. Qed.

Lemma JS_eqb_neq (a b : JS.str) : JS.eqb a b = false <-> a <> b.
Proof.
  rewrite <- JS_eqb_eq. destruct (JS.eqb a b); split; congruence.
Qed.

Lemma endsWith_EndsIn (s t : JS.str) : JS.endsWith s t = true <-> EndsIn s t.
Proof.
  unfold JS.endsWith, EndsIn. split.
  - destruct (Nat.leb_spec (length t) (length s)) as [Hle|Hlt];
      [|discriminate].
    intros E. apply JS_eqb_eq in E.
    set (k := length s - length t) in *.
    exists (firstn k s). rewrite <- E. symmetry; apply firstn_skipn.
  - intros [p ->]. rewrite length_app.
    replace (length t <=? length p + length t) with true
      by (symmetry; apply Nat.leb_le; lia).
    replace (length p + length t - length t) with (length p + 0) by lia.
    rewrite skipn_app, Nat.add_0_r, skipn_all.
    replace (length p - length p) with 0 by lia.
    simpl. apply JS_eqb_refl.
Qed.

Lemma startsWith_BeginsWith (s t : JS.str) :
  JS.startsWith s t = true <-> BeginsWith s t.
Proof.
  unfold JS.startsWith, BeginsWith. split.
  - destruct (Nat.leb_spec (length t) (length s)); [|discriminate].
    intros E. apply JS_eqb_eq in E.
    set (k := length t) in *.
    exists (skipn k s). rewrite <- E. symmetry; apply firstn_skipn.
  - intros [q ->]. rewrite length_app.
    replace (length t <=? length t + length q) with true
      by (symmetry; apply Nat.leb_le; lia).
    rewrite firstn_app, firstn_all, Nat.sub_diag. simpl.
    rewrite app_nil_r. apply JS_eqb_refl.
Qed.

Lemma includes_empty (s : JS.str) : JS.includes s [] = true.
Proof. destruct s; reflexivity. Qed.

Lemma EndsIn_0000_00 (s : JS.str) :
  EndsIn s (JS.lit "0000") -> EndsIn s (JS.lit "00").
Proof.
  intros [p ->]. exists (p ++ JS.lit "00").
  rewrite <- app_assoc. reflexivity.
Qed.

(** ** Tier classification *)

(** The three verdicts of [getAdminLevel] in terms of the two suffix
    relations, for any string whatever. *)
Lemma getAdminLevel_cases (s : JS.str) :
  (getAdminLevel s = Province <-> EndsIn s (JS.lit "0000")) /\
  (getAdminLevel s = City <->
     EndsIn s (JS.lit "00") /\ ~ EndsIn s (JS.lit "0000")) /\
  (getAdminLevel s = District <-> ~ EndsIn s (JS.lit "00")).
Proof.
  unfold getAdminLevel.
  pose proof (endsWith_EndsIn s (JS.lit "0000")) as H4.
  pose proof (endsWith_EndsIn s (JS.lit "00")) as H2.
  pose proof (@EndsIn_0000_00 s) as H42.
  destruct (JS.endsWith s (JS.lit "0000")), (JS.endsWith s (JS.lit "00"));
    repeat split; intros; try discriminate; try tauto;
    try (exfalso; intuition congruence);
    try (intro; intuition congruence).
Qed.

(** C7. On every valid six-digit code [getAdminLevel] answers province
    exactly when the code ends in "0000", city exactly when it ends in "00"
    but not in "0000", and district in the remaining case. *)
Theorem getAdminLevel_valid_code (code : JS.str) :
  validCode code ->
  (getAdminLevel code = Province <-> EndsIn code (JS.lit "0000")) /\
  (getAdminLevel code = City <->
     EndsIn code (JS.lit "00") /\ ~ EndsIn code (JS.lit "0000")) /\
  (getAdminLevel code = District <->
     ~ EndsIn code (JS.lit "0000") /\
     ~ (EndsIn code (JS.lit "00") /\ ~ EndsIn code (JS.lit "0000"))).
Proof.
  intros _.
  destruct (getAdminLevel_cases code) as (HP & HC & HD).
  split; [exact HP|split; [exact HC|split]].
  - intros E. apply HD in E. split; [|tauto].
    intro H. apply E, EndsIn_0000_00, H.
  - intros [N4 N2]. apply HD. intro H2.
    destruct (getAdminLevel code) eqn:E.
    + apply N4, HP; reflexivity.
    + apply N2, HC; reflexivity.
    + apply N2. split; [exact H2|exact N4].
Qed.

Lemma getAdminLevel_valid_code_witness :
  validCode (JS.lit "330100") /\
  (getAdminLevel (JS.lit "330100") = City <->
     EndsIn (JS.lit "330100") (JS.lit "00") /\
     ~ EndsIn (JS.lit "330100") (JS.lit "0000")).
Proof.
  assert (V : validCode (JS.lit "330100")) by (split; reflexivity).
  split; [exact V|].
  exact (proj1 (proj2 (getAdminLevel_valid_code V))).
Defined.

(** C10. [getAdminLevel] is total on all strings and its answer depends
    on nothing but the two suffix tests: strings that agree on both tests
    get the same tier; the empty string, and every string that does not
    end in "00", is a district. *)
Theorem getAdminLevel_total (s : JS.str) :
  (exists l, getAdminLevel s = l /\
             (l = Province \/ l = City \/ l = District)) /\
  (getAdminLevel s = Province <-> EndsIn s (JS.lit "0000")) /\
  (getAdminLevel s = City <->
     EndsIn s (JS.lit "00") /\ ~ EndsIn s (JS.lit "0000")) /\
  (getAdminLevel s = District <-> ~ EndsIn s (JS.lit "00")) /\
  (forall s',
     (EndsIn s (JS.lit "0000") <-> EndsIn s' (JS.lit "0000")) ->
     (EndsIn s (JS.lit "00") <-> EndsIn s' (JS.lit "00")) ->
     getAdminLevel s = getAdminLevel s') /\
  getAdminLevel [] = District.
Proof.
  destruct (getAdminLevel_cases s) as (HP & HC & HD).
  split; [|split; [exact HP|split; [exact HC|split; [exact HD|split]]]].
  - exists (getAdminLevel s). split; [reflexivity|].
    destruct (getAdminLevel s); auto.
  - intros s' E4 E2.
    destruct (getAdminLevel_cases s') as (HP' & HC' & HD').
    destruct (getAdminLevel s) eqn:E.
    + symmetry. apply HP', E4, HP. reflexivity.
    + symmetry. apply HC'. rewrite <- E4, <- E2. apply HC. reflexivity.
    + symmetry. apply HD'. rewrite <- E2. apply HD. reflexivity.
  - reflexivity.
Qed.

(** ** Exact-code lookups *)

Section Lookup.

Variable T : list CityInfo.

Lemma find_code_Some (k : JS.str) (p : CityInfo) :
  find (fun c => JS.eqb (adcode c) k) T = Some p <-> FirstWithCode T k p.
Proof.
  unfold FirstWithCode. induction T as [|x l IH]; simpl.
  - split; [discriminate|]. intros (T1 & T2 & E & _).
    destruct T1; discriminate.
  - destruct (JS.eqb (adcode x) k) eqn:Ex.
    + apply JS_eqb_eq in Ex. split.
      * intros [= ->]. exists [], l. simpl; auto.
      * intros ([|y T1] & T2 & E & Hp & Hfirst).
        -- simpl in E. injection E as -> _. reflexivity.
        -- simpl in E. injection E as <- _.
           exfalso. apply (Hfirst x); simpl; auto.
    + apply JS_eqb_neq in Ex. rewrite IH. split.
      * intros (T1 & T2 & -> & Hp & Hfirst). exists (x :: T1), T2.
        repeat split; auto. intros c [<-|Hc]; auto.
      * intros ([|y T1] & T2 & E & Hp & Hfirst).
        -- simpl in E. injection E as -> _. contradiction.
        -- simpl in E. injection E as _ ->. exists T1, T2.
           repeat split; auto. intros c Hc. apply Hfirst; simpl; auto.
Qed.

Lemma find_code_None (k : JS.str) :
  find (fun c => JS.eqb (adcode c) k) T = None <-> Absent T k.
Proof.
  unfold Absent. split.
  - intros H c Hc E.
    apply (find_none _ _ H) in Hc. simpl in Hc.
    apply JS_eqb_neq in Hc. contradiction.
  - intros H. destruct (find _ T) as [p|] eqn:E; [|reflexivity].
    apply find_some in E. destruct E as [Hin Heq].
    apply JS_eqb_eq in Heq. exfalso. exact (H p Hin Heq).
Qed.

Lemma FirstWithCode_In (k : JS.str) (p : CityInfo) :
  FirstWithCode T k p -> In p T /\ adcode p = k.
Proof.
  intros (T1 & T2 & -> & Hk & _). split; [|exact Hk].
  apply in_or_app; right; left; reflexivity.
Qed.

End Lookup.

Lemma substring_0 (n : nat) (s : JS.str) : JS.substring 0 n s = firstn n s.
Proof.
  unfold JS.substring.
  change (Nat.min 0 (length s)) with 0.
  change (Nat.min 0 (Nat.min n (length s))) with 0.
  change (Nat.max 0 (Nat.min n (length s))) with (Nat.min n (length s)).
  rewrite Nat.sub_0_r. change (skipn 0 s) with s.
  destruct (Nat.le_ge_cases n (length s)) as [H|H].
  - rewrite Nat.min_l by exact H. reflexivity.
  - rewrite Nat.min_r by exact H.
    rewrite firstn_all, firstn_all2 by exact H. reflexivity.
Qed.

Lemma isMunicipality_true (p : CityInfo) :
  isMunicipality p = true <-> Municipality p.
Proof.
  unfold isMunicipality, Municipality, array_includes.
  rewrite existsb_exists. split.
  - intros (y & Hy & E). apply JS_eqb_eq in E. subst y. exact Hy.
  - intros H. exists (adcode p). split; [exact H|apply JS_eqb_refl].
Qed.

Lemma isMunicipality_false (p : CityInfo) :
  isMunicipality p = false <-> ~ Municipality p.
Proof.
  rewrite <- isMunicipality_true.
  destruct (isMunicipality p); split; congruence.
Qed.

Lemma findProvince_first (code : JS.str) (T : list CityInfo) (p : CityInfo) :
  findProvince code T = Some p <-> FirstWithCode T (provinceCodeOf code) p.
Proof.
  unfold findProvince, provinceCodeOf. rewrite substring_0.
  apply find_code_Some.
Qed.

Lemma findProvince_absent (code : JS.str) (T : list CityInfo) :
  findProvince code T = None <-> Absent T (provinceCodeOf code).
Proof.
  unfold findProvince, provinceCodeOf. rewrite substring_0.
  apply find_code_None.
Qed.

Lemma findCity_first (code : JS.str) (T : list CityInfo) (c : CityInfo) :
  findCity code T = Some c <-> FirstWithCode T (cityCodeOf code) c.
Proof.
  unfold findCity, cityCodeOf. rewrite substring_0. apply find_code_Some.
Qed.

Lemma findCity_absent (code : JS.str) (T : list CityInfo) :
  findCity code T = None <-> Absent T (cityCodeOf code).
Proof.
  unfold findCity, cityCodeOf. rewrite substring_0. apply find_code_None.
Qed.

Lemma isCountyLevelCity_true (r : CityInfo) :
  isCountyLevelCity r = true <->
  getAdminLevel (adcode r) = District /\ EndsIn (name r) shi.
Proof.
  unfold isCountyLevelCity. rewrite andb_true_iff, endsWith_EndsIn.
  destruct (getAdminLevel (adcode r)); simpl; intuition congruence.
Qed.

Lemma isCountyLevelCity_false (r : CityInfo) :
  getAdminLevel (adcode r) = District -> ~ EndsIn (name r) shi ->
  isCountyLevelCity r = false.
Proof.
  intros HD HN. destruct (isCountyLevelCity r) eqn:E; [|reflexivity].
  apply isCountyLevelCity_true in E. tauto.
Qed.

(** ** Name composition *)

(** C1. [buildFullName] follows the rule table of the name composer, tier
    by tier. The parent province of [r] is the first record whose code is
    the first two code units of [r]'s code followed by "0000", the parent
    city the first record whose code is the first four followed by "00".
    The rule holds for every record [r], in the table or not. *)
Theorem buildFullName_rule_table (r : CityInfo) (T : list CityInfo) :
  let P := provinceCodeOf (adcode r) in
  let C := cityCodeOf (adcode r) in
  (* province tier *)
  (getAdminLevel (adcode r) = Province -> buildFullName r T = name r) /\
  (* city tier *)
  (getAdminLevel (adcode r) = City ->
     (forall p, FirstWithCode T P p -> ~ Municipality p ->
                buildFullName r T = name p ++ name r) /\
     (forall p, FirstWithCode T P p -> Municipality p ->
                buildFullName r T = name r) /\
     (Absent T P -> buildFullName r T = name r)) /\
  (* district tier, county-level city *)
  (getAdminLevel (adcode r) = District -> EndsIn (name r) shi ->
     (forall p, FirstWithCode T P p ->
                buildFullName r T = name p ++ name r) /\
     (Absent T P -> buildFullName r T = name r)) /\
  (* district tier, ordinary district *)
  (getAdminLevel (adcode r) = District -> ~ EndsIn (name r) shi ->
     (forall p, FirstWithCode T P p -> Municipality p ->
                buildFullName r T = name p ++ name r) /\
     (forall p c, FirstWithCode T P p -> ~ Municipality p ->
                  FirstWithCode T C c ->
                  buildFullName r T = name p ++ name c ++ name r) /\
     (forall p, FirstWithCode T P p -> ~ Municipality p -> Absent T C ->
                buildFullName r T = name p ++ name r) /\
     (Absent T P -> Absent T C -> buildFullName r T = name r)).
Proof.
  intros P C. subst P C. unfold buildFullName.
  split; [|split; [|split]].
  - intros ->. reflexivity.
  - intros ->. simpl. split; [|split].
    + intros p Hp Hm. apply findProvince_first in Hp.
      apply isMunicipality_false in Hm. rewrite Hp, Hm. reflexivity.
    + intros p Hp Hm. apply findProvince_first in Hp.
      apply isMunicipality_true in Hm. rewrite Hp, Hm. reflexivity.
    + intros Ha. apply findProvince_absent in Ha. rewrite Ha. reflexivity.
  - intros HD Hs.
    assert (Hc : isCountyLevelCity r = true)
      by (apply isCountyLevelCity_true; auto).
    rewrite HD, Hc. simpl. split.
    + intros p Hp. apply findProvince_first in Hp. rewrite Hp. reflexivity.
    + intros Ha. apply findProvince_absent in Ha. rewrite Ha. reflexivity.
  - intros HD Hs.
    rewrite (isCountyLevelCity_false r HD Hs), HD. simpl.
    split; [|split; [|split]].
    + intros p Hp Hm. apply findProvince_first in Hp.
      apply isMunicipality_true in Hm. rewrite Hp, Hm. reflexivity.
    + intros p c Hp Hm Hc. apply findProvince_first in Hp.
      apply isMunicipality_false in Hm. apply findCity_first in Hc.
      rewrite Hp, Hm, Hc. reflexivity.
    + intros p Hp Hm Hc. apply findProvince_first in Hp.
      apply isMunicipality_false in Hm. apply findCity_absent in Hc.
      rewrite Hp, Hm, Hc. reflexivity.
    + intros Ha _. apply findProvince_absent in Ha. rewrite Ha.
      reflexivity.
Qed.

(** The rule table at work on the sample table: an ordinary district below
    a city, a district of a municipality, and a county-level city. *)
Lemma buildFullName_rule_table_witness :
  buildFullName Sample.xihu Sample.table =
    name Sample.zhejiang ++ name Sample.hangzhou ++ name Sample.xihu /\
  buildFullName Sample.dongcheng Sample.table =
    name Sample.beijing ++ name Sample.dongcheng /\
  buildFullName Sample.yiwu Sample.table =
    name Sample.zhejiang ++ name Sample.yiwu.
Proof.
  split; [|split].
  - pose proof (buildFullName_rule_table Sample.xihu Sample.table) as H.
    cbv zeta in H. destruct H as (_ & _ & _ & H).
    destruct H as (_ & H & _).
    + reflexivity.
    + intro H. apply endsWith_EndsIn in H. discriminate.
    + apply (H Sample.zhejiang Sample.hangzhou).
      * apply find_code_Some. reflexivity.
      * intro M. apply isMunicipality_true in M. discriminate.
      * apply find_code_Some. reflexivity.
  - pose proof (buildFullName_rule_table Sample.dongcheng Sample.table)
      as H.
    cbv zeta in H. destruct H as (_ & _ & _ & H).
    destruct H as (H & _).
    + reflexivity.
    + intro H. apply endsWith_EndsIn in H. discriminate.
    + apply (H Sample.beijing).
      * apply find_code_Some. reflexivity.
      * apply isMunicipality_true. reflexivity.
  - pose proof (buildFullName_rule_table Sample.yiwu Sample.table) as H.
    cbv zeta in H. destruct H as (_ & _ & H & _).
    destruct H as (H & _).
    + reflexivity.
    + apply endsWith_EndsIn. reflexivity.
    + apply (H Sample.zhejiang).
      apply find_code_Some. reflexivity.
Defined.

(** ** The expansion loop *)

Section Expansion.

Variable T : list CityInfo.

(** The body of the loop appends exactly the expansion of the match. *)
Lemma expandLoop_step (m : CityInfo) (rest acc : list CityInfo) :
  expandLoop (m :: rest) T acc =
  if 10 <=? length (acc ++ expansionOf T m) then acc ++ expansionOf T m
  else expandLoop rest T (acc ++ expansionOf T m).
Proof.
  cbn [expandLoop]. cbv zeta.
  unfold findDistrictsInProvince, findDistrictsInCity, expansionOf.
  rewrite !substring_0. unfold isDistrictUnder.
  destruct (getAdminLevel (adcode m)); cbn [AdminLevel_eqb]; try reflexivity.
  match goal with
  | |- context [filter ?f T] => destruct (filter f T)
  end; reflexivity.
Qed.

(** The loop leaves the expansions of an initial segment of the matches,
    in order; the segment is all of them unless ten results were reached. *)
Lemma expandLoop_prefix (ms acc : list CityInfo) :
  exists n,
    n <= length ms /\
    expandLoop ms T acc = acc ++ flat_map (expansionOf T) (firstn n ms) /\
    (length (expandLoop ms T acc) < 10 -> n = length ms).
Proof.
  revert acc. induction ms as [|m ms IH]; intros acc.
  - exists 0. simpl. rewrite app_nil_r. auto.
  - rewrite expandLoop_step.
    destruct (Nat.leb_spec 10 (length (acc ++ expansionOf T m))) as [H|H].
    + exists 1. cbn [firstn flat_map length]. rewrite app_nil_r.
      repeat split; [lia|lia].
    + destruct (IH (acc ++ expansionOf T m)) as (n & Hn & Heq & Hall).
      exists (S n). cbn [firstn flat_map length].
      split; [lia|split].
      * rewrite Heq, <- app_assoc. reflexivity.
      * intros Hlt. rewrite (Hall Hlt). reflexivity.
Qed.

(** The loop stops at the first match after whose expansion the count is
    ten or more; the matches behind it are not looked at. *)
Lemma expandLoop_stop (pre post acc : list CityInfo) (m : CityInfo) :
  length (acc ++ flat_map (expansionOf T) pre) < 10 ->
  10 <= length (acc ++ flat_map (expansionOf T) (pre ++ [m])) ->
  expandLoop (pre ++ m :: post) T acc =
  acc ++ flat_map (expansionOf T) (pre ++ [m]).
Proof.
  revert acc. induction pre as [|x pre IH]; intros acc Hlt Hge.
  - cbn [app flat_map] in *. rewrite app_nil_r in *.
    rewrite expandLoop_step.
    destruct (Nat.leb_spec 10 (length (acc ++ expansionOf T m)));
      [reflexivity|lia].
  - cbn [app flat_map] in *. rewrite expandLoop_step.
    rewrite app_assoc in Hlt, Hge.
    destruct (Nat.leb_spec 10 (length (acc ++ expansionOf T x))) as [H|H].
    + rewrite length_app in Hlt. lia.
    + rewrite (IH _ Hlt Hge), <- app_assoc. reflexivity.
Qed.

(** When the count stays below ten, every match is expanded. *)
Lemma expandLoop_all (ms acc : list CityInfo) :
  length (acc ++ flat_map (expansionOf T) ms) < 10 ->
  expandLoop ms T acc = acc ++ flat_map (expansionOf T) ms.
Proof.
  revert acc. induction ms as [|m ms IH]; intros acc Hlt.
  - simpl. rewrite app_nil_r. reflexivity.
  - cbn [flat_map] in *. rewrite expandLoop_step.
    rewrite app_assoc in Hlt.
    destruct (Nat.leb_spec 10 (length (acc ++ expansionOf T m))) as [H|H].
    + rewrite length_app in Hlt. lia.
    + rewrite (IH _ Hlt), <- app_assoc. reflexivity.
Qed.

(** An expansion holds records of the table or the match itself, none of
    them of province tier. *)
Lemma expansionOf_In (m c : CityInfo) :
  In c (expansionOf T m) ->
  (In c T \/ c = m) /\ getAdminLevel (adcode c) <> Province.
Proof.
  unfold expansionOf.
  assert (F : forall pre, In c (filter (isDistrictUnder pre) T) ->
              (In c T \/ c = m) /\ getAdminLevel (adcode c) <> Province).
  { intros pre H. apply filter_In in H. destruct H as [Hin Hd].
    unfold isDistrictUnder in Hd. apply andb_true_iff in Hd.
    destruct Hd as [Hd _]. split; [auto|].
    destruct (getAdminLevel (adcode c)); simpl in Hd; congruence. }
  destruct (getAdminLevel (adcode m)) eqn:E.
  - apply F.
  - destruct (filter (isDistrictUnder (firstn 4 (adcode m))) T) eqn:Ef.
    + intros [<-|[]]. split; [auto|congruence].
    + rewrite <- Ef. apply F.
  - intros [<-|[]]. split; [auto|congruence].
Qed.

(** Only a province-tier match can have an empty expansion. *)
Lemma expansionOf_nonempty (m : CityInfo) :
  getAdminLevel (adcode m) <> Province -> expansionOf T m <> [].
Proof.
  unfold expansionOf. destruct (getAdminLevel (adcode m)).
  - congruence.
  - destruct (filter _ T); discriminate.
  - discriminate.
Qed.

End Expansion.

Lemma includes_Contains (s t : JS.str) :
  JS.includes s t = true <-> Contains s t.
Proof.
  unfold Contains. induction s as [|x s IH].
  - cbn [JS.includes]. rewrite orb_false_r, startsWith_BeginsWith. split.
    + intros [q E]. exists [], q. exact E.
    + intros (a & b & E). destruct a; [|discriminate]. exists b. exact E.
  - cbn [JS.includes]. rewrite orb_true_iff, startsWith_BeginsWith, IH.
    split.
    + intros [[q E]|(a & b & E)].
      * exists [], q. exact E.
      * exists (x :: a), b. rewrite E. reflexivity.
    + intros ([|y a] & b & E).
      * left. exists b. exact E.
      * right. injection E as _ E. exists a, b. exact E.
Qed.

Lemma matchesOf_empty (T : list CityInfo) : matchesOf T [] = T.
Proof.
  unfold matchesOf. induction T as [|x l IH]; [reflexivity|].
  cbn [filter]. rewrite includes_empty, IH. reflexivity.
Qed.

Lemma expandedMatchesOf_eq (T : list CityInfo) (q : query) :
  expandedMatchesOf T q = expandLoop (matchesOf T (or_empty q)) T [].
Proof. reflexivity. Qed.

Lemma listCityFrom_eq (T : list CityInfo) (q : query) :
  listCityFrom T q =
  List.map (composed T) (firstn 100 (expandedMatchesOf T q)).
Proof. reflexivity. Qed.

Lemma In_firstn_In {A : Type} (n : nat) (l : list A) (x : A) :
  In x (firstn n l) -> In x l.
Proof.
  intros H. rewrite <- (firstn_skipn n l). apply in_or_app; left; exact H.
Qed.

Lemma firstn_Prefix {A : Type} (n : nat) (l : list A) :
  Prefix (firstn n l) l.
Proof. exists (skipn n l). symmetry; apply firstn_skipn. Qed.

Lemma isDistrictUnder_true (prefix : JS.str) (c : CityInfo) :
  isDistrictUnder prefix c = true <->
  getAdminLevel (adcode c) = District /\ BeginsWith (adcode c) prefix.
Proof.
  unfold isDistrictUnder.
  rewrite andb_true_iff, startsWith_BeginsWith.
  destruct (getAdminLevel (adcode c)); simpl; intuition congruence.
Qed.

Lemma matchesOf_In (T : list CityInfo) (s : JS.str) (c : CityInfo) :
  In c (matchesOf T s) <-> In c T /\ Contains (name c) s.
Proof.
  unfold matchesOf. rewrite filter_In, includes_Contains. reflexivity.
Qed.

(** Every record the loop leaves behind comes from the table and is not
    of province tier. *)
Lemma expandedMatchesOf_In (T : list CityInfo) (q : query) (c : CityInfo) :
  In c (expandedMatchesOf T q) ->
  In c T /\ getAdminLevel (adcode c) <> Province.
Proof.
  rewrite expandedMatchesOf_eq.
  destruct (expandLoop_prefix T (matchesOf T (or_empty q)) [])
    as (n & _ & -> & _).
  cbn [app]. intros H. apply in_flat_map in H. destruct H as (m & Hm & Hc).
  apply In_firstn_In in Hm. apply matchesOf_In in Hm.
  apply expansionOf_In in Hc. destruct Hc as [[Hin| ->] Hp]; tauto.
Qed.

(** ** Search *)

(** C2. In [listCity] the records whose name contains the query are
    expanded by tier in table order: the accumulated list is the
    concatenation of the expansions of the matches the loop reaches, all
    of them unless ten results were reached, and the answer is its first
    hundred entries, composed. A province contributes the district-tier
    records whose code begins with its first two code units, possibly
    none and never itself; a city contributes the district-tier records
    whose code begins with its first four code units or, when there is none,
    itself; a district contributes itself. *)
Theorem listCity_expands_by_tier (T : list CityInfo) (q : query) :
  let ms := matchesOf T (or_empty q) in
  (forall c, In c ms <-> In c T /\ Contains (name c) (or_empty q)) /\
  (exists n,
     n <= length ms /\
     expandedMatchesOf T q = flat_map (expansionOf T) (firstn n ms) /\
     (length (expandedMatchesOf T q) < 10 -> n = length ms)) /\
  listCityFrom T q =
    List.map (composed T) (firstn 100 (expandedMatchesOf T q)) /\
  (forall prefix c,
     isDistrictUnder prefix c = true <->
     getAdminLevel (adcode c) = District /\ BeginsWith (adcode c) prefix) /\
  (forall m, getAdminLevel (adcode m) = Province ->
     expansionOf T m = filter (isDistrictUnder (firstn 2 (adcode m))) T /\
     ~ In m (expansionOf T m)) /\
  (forall m, getAdminLevel (adcode m) = City ->
     filter (isDistrictUnder (firstn 4 (adcode m))) T <> [] ->
     expansionOf T m = filter (isDistrictUnder (firstn 4 (adcode m))) T) /\
  (forall m, getAdminLevel (adcode m) = City ->
     filter (isDistrictUnder (firstn 4 (adcode m))) T = [] ->
     expansionOf T m = [m]) /\
  (forall m, getAdminLevel (adcode m) = District -> expansionOf T m = [m]).
Proof.
  intros ms. subst ms.
  split; [intros c; apply matchesOf_In|].
  split.
  { destruct (expandLoop_prefix T (matchesOf T (or_empty q)) [])
      as (n & Hn & Heq & Hall).
    exists n. rewrite expandedMatchesOf_eq. auto. }
  split; [apply listCityFrom_eq|].
  split; [intros; apply isDistrictUnder_true|].
  split; [|unfold expansionOf; repeat split].
  - intros m Hm. split.
    + unfold expansionOf. rewrite Hm. reflexivity.
    + intros Hin. apply (expansionOf_In T m m) in Hin.
      destruct Hin as [_ Hp]. contradiction.
  - intros m Hm Hne. rewrite Hm.
    destruct (filter (isDistrictUnder (firstn 4 (adcode m))) T);
      [contradiction|reflexivity].
  - intros m Hm He. rewrite Hm, He. reflexivity.
  - intros m Hm. rewrite Hm. reflexivity.
Qed.

(** On the sample table Hangzhou expands to its district; alone in a
    table it expands to itself. *)
Lemma listCity_expands_by_tier_witness :
  expansionOf Sample.table Sample.hangzhou = [Sample.xihu] /\
  expansionOf [Sample.hangzhou] Sample.hangzhou = [Sample.hangzhou] /\
  expansionOf Sample.table Sample.yiwu = [Sample.yiwu].
Proof.
  split; [|split].
  - pose proof (listCity_expands_by_tier Sample.table Undefined) as H.
    cbv zeta in H. destruct H as (_ & _ & _ & _ & _ & H & _).
    rewrite (H Sample.hangzhou); [reflexivity|reflexivity|discriminate].
  - pose proof (listCity_expands_by_tier [Sample.hangzhou] Undefined) as H.
    cbv zeta in H. destruct H as (_ & _ & _ & _ & _ & _ & H & _).
    apply (H Sample.hangzhou); reflexivity.
  - pose proof (listCity_expands_by_tier Sample.table Undefined) as H.
    cbv zeta in H. destruct H as (_ & _ & _ & _ & _ & _ & _ & H).
    apply (H Sample.yiwu); reflexivity.
Defined.

(** C3. Whatever the table and the query, [listCity] returns at most one
    hundred entries; through the loader, either the load throws or the
    returned array has at most one hundred entries. *)
Theorem listCity_at_most_100 (T : list CityInfo) (q : query)
  (readFileSync : outcome JS.str) :
  length (listCityFrom T q) <= 100 /\
  match listCity readFileSync q with
  | Returned l => length l <= 100
  | Thrown _ => True
  end.
Proof.
  assert (B : forall T', length (listCityFrom T' q) <= 100).
  { intros T'. unfold listCityFrom. rewrite length_map.
    apply firstn_le_length. }
  split; [apply B|].
  unfold listCity. destruct (loadCityData readFileSync); simpl; auto.
Qed.

(** C4. The loop stops at the first match after whose expansion the
    accumulated count is ten or more: the count is tested only once the
    match is fully expanded, the matches behind it contribute nothing, and
    the count may then exceed ten (eleven results on the sample table with
    a province of eleven districts). When the count never reaches ten,
    every match is expanded. *)
Theorem listCity_stops_at_ten :
  (forall T q pre m post,
     matchesOf T (or_empty q) = pre ++ m :: post ->
     length (flat_map (expansionOf T) pre) < 10 ->
     10 <= length (flat_map (expansionOf T) (pre ++ [m])) ->
     expandedMatchesOf T q = flat_map (expansionOf T) (pre ++ [m])) /\
  (forall T q,
     length (flat_map (expansionOf T) (matchesOf T (or_empty q))) < 10 ->
     expandedMatchesOf T q =
     flat_map (expansionOf T) (matchesOf T (or_empty q))) /\
  (exists T q, 10 < length (expandedMatchesOf T q)).
Proof.
  split; [|split].
  - intros T q pre m post E Hlt Hge.
    rewrite expandedMatchesOf_eq, E.
    apply (expandLoop_stop T pre post [] m); assumption.
  - intros T q Hlt. rewrite expandedMatchesOf_eq.
    apply (expandLoop_all T _ []). exact Hlt.
  - exists Sample.bigTable, Undefined. vm_compute. lia.
Qed.

(** On the sample table with the eleven-district province every record
    matches the absent query, the first match alone is expanded, and the
    thirteen matches behind it add nothing. *)
Lemma listCity_stops_at_ten_witness :
  expandedMatchesOf Sample.bigTable Undefined =
  flat_map (expansionOf Sample.bigTable) [Sample.guangdong] /\
  length (expandedMatchesOf Sample.bigTable Undefined) = 11.
Proof.
  split; [|reflexivity].
  apply (proj1 listCity_stops_at_ten Sample.bigTable Undefined []
           Sample.guangdong
           (List.map Sample.district (seq 1 11) ++
            [Sample.beijing; Sample.dongcheng])).
  - reflexivity.
  - simpl. lia.
  - vm_compute. lia.
Defined.

(** C9. No entry returned by [listCity] is of province tier: the code of
    every entry fails the [endsWith("0000")] test. *)
Theorem listCity_no_province (T : list CityInfo) (q : query) :
  Forall (fun e =>
            getAdminLevel (adcode e) <> Province /\
            JS.endsWith (adcode e) (JS.lit "0000") = false)
         (listCityFrom T q).
Proof.
  apply Forall_forall. intros e He. rewrite listCityFrom_eq in He.
  apply in_map_iff in He. destruct He as (c & <- & Hc).
  apply In_firstn_In in Hc. apply expandedMatchesOf_In in Hc.
  destruct Hc as [_ Hp]. cbn [composed adcode]. split; [exact Hp|].
  unfold getAdminLevel in Hp.
  destruct (JS.endsWith (adcode c) (JS.lit "0000")); congruence.
Qed.

Lemma Prefix_map {A B : Type} (f : A -> B) (l1 l2 : list A) :
  Prefix l1 l2 -> Prefix (List.map f l1) (List.map f l2).
Proof. intros [k ->]. exists (List.map f k). apply map_app. Qed.

Lemma Prefix_trans {A : Type} (l1 l2 l3 : list A) :
  Prefix l1 l2 -> Prefix l2 l3 -> Prefix l1 l3.
Proof.
  intros [k ->] [k' ->]. exists (k ++ k'). symmetry; apply app_assoc.
Qed.

Lemma flat_map_firstn_Prefix {A B : Type} (f : A -> list B) (n : nat)
  (l : list A) : Prefix (flat_map f (firstn n l)) (flat_map f l).
Proof.
  exists (flat_map f (skipn n l)).
  rewrite <- flat_map_app, firstn_skipn. reflexivity.
Qed.

Lemma or_empty_falsy (q : query) :
  q = Undefined \/ q = Null \/ q = Str [] -> or_empty q = [].
Proof. intros [->|[->| ->]]; reflexivity. Qed.

(** With a query that matches everything, the search is empty only on a
    table of provinces. *)
Lemma expandLoop_nonempty (T ms : list CityInfo) (r : CityInfo) :
  In r ms -> getAdminLevel (adcode r) <> Province ->
  expandLoop ms T [] <> [].
Proof.
  intros Hin Hp E.
  destruct (expandLoop_prefix T ms []) as (n & _ & Heq & Hall).
  rewrite E in Hall. specialize (Hall ltac:(simpl; lia)). subst n.
  rewrite firstn_all, E in Heq. cbn [app] in Heq.
  assert (Hr : expansionOf T r <> []) by (apply expansionOf_nonempty, Hp).
  destruct (expansionOf T r) as [|c l] eqn:Er; [congruence|].
  assert (Hc : In c (flat_map (expansionOf T) ms)).
  { apply in_flat_map. exists r. rewrite Er. simpl; auto. }
  rewrite <- Heq in Hc. exact Hc.
Qed.

(** C5, with non-emptiness tied to the table. An empty query, [null] and
    an absent query are the same search; every record matches; the answer
    is an initial segment of the full expanded, composed table, of at most
    one hundred entries; it is non-empty exactly when the table holds a
    record that is not of province tier. *)
Theorem listCity_empty_query (T : list CityInfo) :
  listCityFrom T (Str []) = listCityFrom T Undefined /\
  listCityFrom T Null = listCityFrom T Undefined /\
  matchesOf T (or_empty Undefined) = T /\
  Prefix (listCityFrom T Undefined) (fullExpansion T) /\
  length (listCityFrom T Undefined) <= 100 /\
  (listCityFrom T Undefined <> [] <->
   exists r, In r T /\ getAdminLevel (adcode r) <> Province).
Proof.
  split; [reflexivity|]. split; [reflexivity|].
  split; [apply matchesOf_empty|].
  assert (E : expandedMatchesOf T Undefined = expandLoop T T []).
  { rewrite expandedMatchesOf_eq. cbn [or_empty JS.lit]. simpl.
    rewrite matchesOf_empty. reflexivity. }
  rewrite listCityFrom_eq, E. split; [|split; [|split]].
  - unfold fullExpansion. apply Prefix_map.
    apply Prefix_trans with (l2 := expandLoop T T []);
      [apply firstn_Prefix|].
    destruct (expandLoop_prefix T T []) as (n & _ & -> & _).
    cbn [app]. apply flat_map_firstn_Prefix.
  - rewrite length_map. apply firstn_le_length.
  - intros Hne.
    destruct (firstn 100 (expandLoop T T [])) as [|c l] eqn:Ef;
      [contradiction Hne; reflexivity|].
    assert (Hc : In c (expandedMatchesOf T Undefined)).
    { rewrite E. apply In_firstn_In with (n := 100). rewrite Ef.
      simpl; auto. }
    apply expandedMatchesOf_In in Hc. exists c. exact Hc.
  - intros (r & Hin & Hp) Hnil.
    apply (expandLoop_nonempty T T r Hin Hp).
    destruct (expandLoop T T []) as [|c l]; [reflexivity|].
    discriminate Hnil.
Qed.

(** The answer is empty on a source with only its header line and on a
    table of provinces. *)
Lemma listCity_empty_query_counterexample :
  listCity (Returned Sample.header) Undefined = Returned [] /\
  listCityFrom [Sample.zhejiang; Sample.beijing] (Str []) = [] /\
  ~ (forall T q, or_empty q = [] -> listCityFrom T q <> []).
Proof.
  split; [reflexivity|]. split; [reflexivity|].
  intros H. apply (H [] Undefined); reflexivity.
Qed.

(** ** Exact lookup *)

(** C8. A code that no record of the table carries is answered with
    [undefined]: [getCity] returns, it does not throw. *)
Theorem getCity_not_found (readFileSync : outcome JS.str)
  (T : list CityInfo) (code : JS.str) :
  loadCityData readFileSync = Returned T ->
  Absent T code ->
  getCityFrom T code = None /\ getCity readFileSync code = Returned None.
Proof.
  intros HL HA.
  assert (HN : getCityFrom T code = None)
    by (apply find_code_None; exact HA).
  split; [exact HN|].
  unfold getCity. rewrite HL. cbn [bind]. rewrite HN. reflexivity.
Qed.

Lemma getCity_not_found_witness :
  getCity (Returned Sample.csv) (JS.lit "999999") = Returned None.
Proof.
  apply (getCity_not_found (Returned Sample.csv) (T := Sample.table)).
  - reflexivity.
  - apply find_code_None. reflexivity.
Defined.

(** ** Loading *)

Lemma parseLine_three_fields (line : JS.str) :
  3 <= length (JS.split comma line) ->
  parseLine line = Returned (recordOfLine line).
Proof.
  unfold parseLine, recordOfLine.
  destruct (JS.split comma line) as [|a [|b [|c rest]]]; simpl;
    intros H; try lia; reflexivity.
Qed.

(** A line of one or two fields: [trim] is called on [undefined]. *)
Lemma parseLine_short (line : JS.str) :
  length (JS.split comma line) < 3 -> parseLine line = Thrown TypeError.
Proof.
  unfold parseLine.
  destruct (JS.split comma line) as [|a [|b [|c rest]]]; simpl;
    intros H; try lia; reflexivity.
Qed.

Lemma array_map_all {A B : Type} (f : A -> outcome B) (g : A -> B)
  (xs : list A) :
  (forall x, In x xs -> f x = Returned (g x)) ->
  array_map f xs = Returned (List.map g xs).
Proof.
  induction xs as [|x xs IH]; intros H; [reflexivity|].
  cbn [array_map List.map]. rewrite (H x) by (left; reflexivity).
  cbn [bind]. rewrite IH by (intros y Hy; apply H; right; exact Hy).
  reflexivity.
Qed.

Lemma array_map_throws {A B : Type} (f : A -> outcome B) (e : error)
  (xs : list A) (x : A) :
  (forall y b, f y = Thrown b -> b = e) ->
  In x xs -> f x = Thrown e -> array_map f xs = Thrown e.
Proof.
  intros Honly. induction xs as [|y xs IH]; intros Hin Hx; [contradiction|].
  cbn [array_map]. destruct (f y) as [b|b] eqn:Ey; cbn [bind].
  - destruct Hin as [->|Hin]; [congruence|].
    rewrite (IH Hin Hx). reflexivity.
  - rewrite (Honly y b Ey). reflexivity.
Qed.

(** A data line with fewer than three fields makes the whole load throw. *)
Lemma loadCityData_short_row (content line : JS.str) :
  In line (dataLinesOf content) ->
  length (JS.split comma line) < 3 ->
  loadCityData (Returned content) = Thrown TypeError.
Proof.
  intros Hin Hshort. unfold loadCityData. cbn [bind]. cbv zeta.
  apply array_map_throws with (x := line).
  - intros y b Hy.
    destruct (Nat.lt_ge_cases (length (JS.split comma y)) 3) as [H|H].
    + rewrite (parseLine_short y H) in Hy. congruence.
    + rewrite (parseLine_three_fields y H) in Hy. discriminate.
  - exact Hin.
  - apply parseLine_short, Hshort.
Qed.

(** C6, for lines of three fields or more. On a readable source whose
    data lines (all lines but the first, blank ones dropped) each have
    three comma-separated fields or more, the load returns one record per
    data line, in order, made of the first three fields trimmed, whatever
    they contain: no code is checked and fields beyond the third are
    dropped. A source that cannot be read makes the load throw. *)
Theorem loadCityData_propagates (content : JS.str) :
  (forall line, In line (dataLinesOf content) ->
                3 <= length (JS.split comma line)) ->
  loadCityData (Returned content) =
    Returned (List.map recordOfLine (dataLinesOf content)) /\
  (forall e, loadCityData (Thrown e) = Thrown e).
Proof.
  intros H. split; [|reflexivity].
  unfold loadCityData. cbn [bind]. cbv zeta.
  apply array_map_all. intros line Hin.
  apply parseLine_three_fields, H, Hin.
Qed.

Lemma loadCityData_propagates_witness :
  loadCityData (Returned Sample.messyCsv) =
  Returned [mkCityInfo (JS.lit "x") (JS.lit "abc") (JS.lit "010");
            mkCityInfo (JS.lit "y") (JS.lit "12") (JS.lit "")].
Proof.
  apply (loadCityData_propagates Sample.messyCsv).
  intros line Hin. vm_compute in Hin.
  destruct Hin as [<-|[<-|[]]]; vm_compute; lia.
Defined.

(** On a data line with two fields the load throws a [TypeError] although
    the source was read. *)
Lemma loadCityData_propagates_counterexample :
  loadCityData (Returned Sample.shortCsv) = Thrown TypeError.
Proof. reflexivity. Qed.

(** ** The examples of the specification *)

(** Searching the two code units of "Beijing" yields the district of the
    municipality, named province + district. *)
Example search_beijing :
  listCityFrom Sample.table (Str [21271; 20140]%N) =
  [mkCityInfo (name Sample.beijing ++ name Sample.dongcheng)
              (JS.lit "110101") (JS.lit "010")].
Proof. reflexivity. Qed.

(** Searching the two code units of "Hangzhou" expands the city to its
    district, named province + city + district. *)
Example search_hangzhou :
  listCityFrom Sample.table (Str [26477; 24030]%N) =
  [mkCityInfo
     (name Sample.zhejiang ++ name Sample.hangzhou ++ name Sample.xihu)
     (JS.lit "330106") (JS.lit "0571")].
Proof. reflexivity. Qed.

(** The sample source loads to the sample table. *)
Example load_sample :
  loadCityData (Returned Sample.csv) = Returned Sample.table.
Proof. reflexivity. Qed.

(** * Further properties of the code *)

(** ** [split] and [trim] *)

Lemma split_no_sep (sep : JS.char) (a : JS.str) :
  ~ In sep a -> JS.split sep a = [a].
Proof.
  induction a as [|c a IH]; intros H; [reflexivity|].
  cbn [JS.split]. destruct (N.eqb_spec c sep) as [E|E].
  - exfalso. apply H. left. exact E.
  - rewrite IH; [reflexivity|]. intros Hin. apply H. right. exact Hin.
Qed.

Lemma split_app_sep (sep : JS.char) (a b : JS.str) :
  ~ In sep a -> JS.split sep (a ++ sep :: b) = a :: JS.split sep b.
Proof.
  induction a as [|c a IH]; intros H.
  - cbn [app JS.split]. rewrite N.eqb_refl. reflexivity.
  - cbn [app JS.split]. destruct (N.eqb_spec c sep) as [E|E].
    + exfalso. apply H. left. exact E.
    + rewrite IH; [reflexivity|]. intros Hin. apply H. right. exact Hin.
Qed.

(** The pieces of a split hold no separator and only code units of the
    string. *)
Lemma split_pieces (sep : JS.char) (s f : JS.str) :
  In f (JS.split sep s) -> ~ In sep f /\ incl f s.
Proof.
  revert f. induction s as [|c s IH]; intros f Hf.
  - destruct Hf as [<-|[]]. split; [intros []|apply incl_refl].
  - cbn [JS.split] in Hf. destruct (N.eqb_spec c sep) as [E|E].
    + destruct Hf as [<-|Hf].
      * split; [intros []|intros x []].
      * destruct (IH f Hf) as [Hn Hi]. split; [exact Hn|].
        apply incl_tl, Hi.
    + destruct (JS.split sep s) as [|g gs] eqn:Es.
      * destruct Hf as [<-|[]]. split.
        -- intros [H|[]]. congruence.
        -- intros x [<-|[]]. left; reflexivity.
      * destruct Hf as [<-|Hf].
        -- destruct (IH g (or_introl eq_refl)) as [Hn Hi]. split.
           ++ intros [H|H]; [congruence|contradiction].
           ++ intros x [<-|Hx]; [left; reflexivity|right; apply Hi, Hx].
        -- destruct (IH f (or_intror Hf)) as [Hn Hi]. split; [exact Hn|].
           apply incl_tl, Hi.
Qed.

Lemma trimStart_incl (s : JS.str) : incl (JS.trimStart s) s.
Proof.
  induction s as [|c s IH]; [apply incl_refl|].
  cbn [JS.trimStart]. destruct (JS.isWhiteSpace c).
  - apply incl_tl, IH.
  - apply incl_refl.
Qed.

Lemma trim_incl (s : JS.str) : incl (JS.trim s) s.
Proof.
  unfold JS.trim, JS.trimEnd. intros x Hx.
  apply in_rev in Hx. apply trimStart_incl in Hx. apply in_rev in Hx.
  apply trimStart_incl, Hx.
Qed.

Lemma trimStart_idem (s : JS.str) :
  JS.trimStart (JS.trimStart s) = JS.trimStart s.
Proof.
  induction s as [|c s IH]; [reflexivity|].
  cbn [JS.trimStart]. destruct (JS.isWhiteSpace c) eqn:E; [exact IH|].
  cbn [JS.trimStart]. rewrite E. reflexivity.
Qed.

Lemma trimStart_snoc (u : JS.str) (c : JS.char) :
  JS.isWhiteSpace c = false ->
  JS.trimStart (u ++ [c]) = JS.trimStart u ++ [c].
Proof.
  intros Hc. induction u as [|x u IH].
  - cbn. rewrite Hc. reflexivity.
  - cbn [app JS.trimStart]. destruct (JS.isWhiteSpace x); [exact IH|].
    reflexivity.
Qed.

Lemma trimEnd_cons (c : JS.char) (t : JS.str) :
  JS.isWhiteSpace c = false -> JS.trimEnd (c :: t) = c :: JS.trimEnd t.
Proof.
  intros Hc. unfold JS.trimEnd. cbn [rev].
  rewrite (@trimStart_snoc (rev t) c Hc), rev_app_distr. reflexivity.
Qed.

Lemma trimEnd_idem (s : JS.str) : JS.trimEnd (JS.trimEnd s) = JS.trimEnd s.
Proof.
  unfold JS.trimEnd. rewrite rev_involutive, trimStart_idem. reflexivity.
Qed.

(** The result of [trimStart] is empty or begins with a code unit that is
    not white space. *)
Lemma trimStart_head (s : JS.str) :
  JS.trimStart s = [] \/
  exists c t, JS.trimStart s = c :: t /\ JS.isWhiteSpace c = false.
Proof.
  induction s as [|c s IH]; [left; reflexivity|].
  cbn [JS.trimStart]. destruct (JS.isWhiteSpace c) eqn:E; [exact IH|].
  right. exists c, s. split; [reflexivity|exact E].
Qed.

Lemma trim_idem (s : JS.str) : JS.trim (JS.trim s) = JS.trim s.
Proof.
  unfold JS.trim.
  destruct (trimStart_head s) as [->|(c & t & -> & Hc)]; [reflexivity|].
  rewrite (@trimEnd_cons c t Hc). cbn [JS.trimStart]. rewrite Hc.
  rewrite <- (@trimEnd_cons c t Hc). apply trimEnd_idem.
Qed.

(** A string with a code unit that is not white space does not trim to
    the empty string. *)
Lemma trimStart_keeps (s : JS.str) (c : JS.char) :
  In c s -> JS.isWhiteSpace c = false -> In c (JS.trimStart s).
Proof.
  intros Hin Hc. induction s as [|x s IH]; [contradiction|].
  cbn [JS.trimStart]. destruct (JS.isWhiteSpace x) eqn:E.
  - destruct Hin as [->|Hin]; [congruence|]. apply IH, Hin.
  - exact Hin.
Qed.

Lemma trim_keeps (s : JS.str) (c : JS.char) :
  In c s -> JS.isWhiteSpace c = false -> In c (JS.trim s).
Proof.
  intros Hin Hc. unfold JS.trim, JS.trimEnd.
  apply -> in_rev. apply trimStart_keeps; [|exact Hc].
  apply -> in_rev. apply trimStart_keeps; assumption.
Qed.

(** ** More on the loader *)

Lemma comma_not_white : JS.isWhiteSpace comma = false.
Proof. reflexivity. Qed.

Lemma In_skipn_In {A : Type} (n : nat) (l : list A) (x : A) :
  In x (skipn n l) -> In x l.
Proof.
  intros H. rewrite <- (firstn_skipn n l). apply in_or_app; right; exact H.
Qed.

Lemma dataLinesOf_In (content line : JS.str) :
  In line (dataLinesOf content) ->
  ~ In newline line /\ JS.trim line <> [].
Proof.
  unfold dataLinesOf. intros H. apply filter_In in H. destruct H as [Hin Ht].
  apply In_skipn_In in Hin. apply split_pieces in Hin.
  split; [apply Hin|]. intros E. rewrite E in Ht. discriminate.
Qed.

(** Either every line has three fields or some line has fewer. *)
Lemma fields_all_or_short (ls : list JS.str) :
  (forall line, In line ls -> 3 <= length (JS.split comma line)) \/
  (exists line, In line ls /\ length (JS.split comma line) < 3).
Proof.
  induction ls as [|l ls [IH|(x & Hx & Hs)]].
  - left. intros line [].
  - destruct (Nat.lt_ge_cases (length (JS.split comma l)) 3) as [H|H].
    + right. exists l. split; [left; reflexivity|exact H].
    + left. intros line [<-|Hin]; [exact H|apply IH, Hin].
  - right. exists x. split; [right; exact Hx|exact Hs].
Qed.

Lemma loadCityData_returned (content : JS.str) (rs : list CityInfo) :
  loadCityData (Returned content) = Returned rs ->
  rs = List.map recordOfLine (dataLinesOf content) /\
  forall line, In line (dataLinesOf content) ->
               3 <= length (JS.split comma line).
Proof.
  intros H.
  destruct (fields_all_or_short (dataLinesOf content))
    as [Hall|(line & Hin & Hshort)].
  - split; [|exact Hall].
    assert (E : loadCityData (Returned content) =
                Returned (List.map recordOfLine (dataLinesOf content))).
    { unfold loadCityData. cbn [bind]. cbv zeta.
      apply array_map_all. intros l Hl.
      apply parseLine_three_fields, Hall, Hl. }
    congruence.
  - rewrite (loadCityData_short_row content line Hin Hshort) in H.
    discriminate.
Qed.

Lemma recordOfLine_clean (line : JS.str) :
  ~ In newline line -> 3 <= length (JS.split comma line) ->
  CleanRecord (recordOfLine line).
Proof.
  intros Hnl Hlen.
  assert (F : forall i, i < 3 ->
              CleanField (JS.trim (nth i (JS.split comma line) []))).
  { intros i Hi.
    assert (Hin : In (nth i (JS.split comma line) [])
                     (JS.split comma line)) by (apply nth_In; lia).
    apply split_pieces in Hin. destruct Hin as [Hc Hincl].
    repeat split.
    - intros H. apply Hc, trim_incl, H.
    - intros H. apply Hnl, Hincl, trim_incl, H.
    - apply trim_idem. }
  unfold CleanRecord, recordOfLine. cbn [name adcode citycode].
  repeat split; apply F; lia.
Qed.

Lemma lineOf_no_newline (r : CityInfo) :
  CleanRecord r -> ~ In newline (lineOf r).
Proof.
  intros ((_ & Hn & _) & (_ & Ha & _) & (_ & Hc & _)). unfold lineOf.
  intros H. apply in_app_or in H. destruct H as [H|[H|H]]; auto;
    try discriminate.
  apply in_app_or in H. destruct H as [H|[H|H]]; auto; discriminate.
Qed.

Lemma parseLine_lineOf (r : CityInfo) :
  CleanRecord r -> parseLine (lineOf r) = Returned r.
Proof.
  intros ((Hn & _ & Tn) & (Ha & _ & Ta) & (Hc & _ & Tc)).
  unfold parseLine, lineOf.
  rewrite split_app_sep by exact Hn. rewrite split_app_sep by exact Ha.
  rewrite split_no_sep by exact Hc.
  cbn. rewrite Tn, Ta, Tc. destruct r; reflexivity.
Qed.

Lemma split_lines_of_table (T : list CityInfo) :
  Forall CleanRecord T ->
  JS.split newline (flat_map (fun r => lineOf r ++ [newline]) T) =
  List.map lineOf T ++ [[]].
Proof.
  induction 1 as [|r T Hr HT IH]; [reflexivity|].
  cbn [flat_map List.map app]. rewrite <- app_assoc. cbn [app].
  rewrite split_app_sep by (apply lineOf_no_newline, Hr).
  rewrite IH. reflexivity.
Qed.

Lemma lineOf_not_blank (r : CityInfo) :
  JS.truthy (JS.trim (lineOf r)) = true.
Proof.
  assert (H : In comma (JS.trim (lineOf r))).
  { apply trim_keeps; [|apply comma_not_white].
    unfold lineOf. apply in_or_app; right; left; reflexivity. }
  destruct (JS.trim (lineOf r)); [contradiction|reflexivity].
Qed.

Lemma dataLinesOf_sourceOf (hdr : JS.str) (T : list CityInfo) :
  ~ In newline hdr -> Forall CleanRecord T ->
  dataLinesOf (sourceOf hdr T) = List.map lineOf T.
Proof.
  intros Hh HT. unfold dataLinesOf, sourceOf.
  rewrite split_app_sep by exact Hh. cbn [skipn].
  rewrite (@split_lines_of_table T HT), filter_app. cbn [filter JS.trim].
  cbn. rewrite app_nil_r.
  clear HT. induction T as [|r T IH]; [reflexivity|].
  cbn [List.map filter]. rewrite lineOf_not_blank, IH. reflexivity.
Qed.

Lemma trimStart_snoc_white (f : JS.str) (w : JS.char) :
  JS.isWhiteSpace w = true ->
  JS.trimStart (f ++ [w]) =
  match JS.trimStart f with
  | [] => []
  | _ :: _ => JS.trimStart f ++ [w]
  end.
Proof.
  intros Hw. induction f as [|x f IH].
  - cbn. rewrite Hw. reflexivity.
  - cbn [app JS.trimStart]. destruct (JS.isWhiteSpace x); [exact IH|].
    reflexivity.
Qed.

Lemma trimEnd_snoc_white (t : JS.str) (w : JS.char) :
  JS.isWhiteSpace w = true -> JS.trimEnd (t ++ [w]) = JS.trimEnd t.
Proof.
  intros Hw. unfold JS.trimEnd. rewrite rev_app_distr.
  cbn [rev app JS.trimStart]. rewrite Hw. reflexivity.
Qed.

Lemma trim_snoc_white (f : JS.str) (w : JS.char) :
  JS.isWhiteSpace w = true -> JS.trim (f ++ [w]) = JS.trim f.
Proof.
  intros Hw. unfold JS.trim. rewrite (@trimStart_snoc_white f w Hw).
  destruct (JS.trimStart f) as [|c t] eqn:E; [reflexivity|].
  apply trimEnd_snoc_white, Hw.
Qed.

Lemma trim_cons_white (f : JS.str) (w : JS.char) :
  JS.isWhiteSpace w = true -> JS.trim (w :: f) = JS.trim f.
Proof.
  intros Hw. unfold JS.trim. cbn [JS.trimStart]. rewrite Hw. reflexivity.
Qed.

Lemma white_not_comma (w : JS.char) :
  JS.isWhiteSpace w = true -> N.eqb w comma = false.
Proof.
  intros Hw. destruct (N.eqb_spec w comma) as [E|E]; [|reflexivity].
  subst w. rewrite comma_not_white in Hw. discriminate.
Qed.

(** Appending a code unit other than the separator extends the last
    piece. *)
Lemma split_snoc (sep c : JS.char) (s : JS.str) :
  N.eqb c sep = false ->
  exists fs f,
    JS.split sep s = fs ++ [f] /\
    JS.split sep (s ++ [c]) = fs ++ [f ++ [c]].
Proof.
  intros Hc. induction s as [|x s (fs & f & E1 & E2)].
  - exists [], []. cbn. rewrite Hc. split; reflexivity.
  - cbn [app JS.split]. rewrite E1, E2. destruct (N.eqb x sep).
    + exists ([] :: fs), f. split; reflexivity.
    + destruct fs as [|g fs].
      * exists [], (x :: f). split; reflexivity.
      * exists ((x :: g) :: fs), f. split; reflexivity.
Qed.

Lemma split_cons (sep c : JS.char) (s : JS.str) :
  N.eqb c sep = false ->
  exists f fs,
    JS.split sep s = f :: fs /\ JS.split sep (c :: s) = (c :: f) :: fs.
Proof.
  intros Hc. cbn [JS.split]. rewrite Hc.
  destruct (JS.split sep s) as [|f fs] eqn:E.
  - destruct s; cbn [JS.split] in E; [discriminate|].
    destruct (N.eqb c0 sep); [discriminate|].
    destruct (JS.split sep s); discriminate.
  - exists f, fs. split; reflexivity.
Qed.

(** [parseLine] sees the fields of a line only through their trimmed
    values. *)
Lemma parseLine_by_trimmed (l1 l2 : JS.str) :
  List.map JS.trim (JS.split comma l1) =
  List.map JS.trim (JS.split comma l2) ->
  parseLine l1 = parseLine l2.
Proof.
  intros E. unfold parseLine.
  assert (F : forall l i,
            call_trim (nth_error l i) =
            match nth_error (List.map JS.trim l) i with
            | Some t => Returned t
            | None => Thrown TypeError
            end).
  { intros l i. rewrite nth_error_map.
    destruct (nth_error l i); reflexivity. }
  rewrite !F, E. reflexivity.
Qed.

Lemma loadCityData_first_line (h rest : JS.str) :
  ~ In newline h ->
  loadCityData (Returned (h ++ newline :: rest)) =
  array_map parseLine
    (filter (fun line => JS.truthy (JS.trim line))
            (JS.split newline rest)).
Proof.
  intros Hh. unfold loadCityData. cbn [bind]. cbv zeta.
  rewrite split_app_sep by exact Hh. reflexivity.
Qed.

(** X1. A table of clean records written as text, one
    [name,adcode,citycode] line per record below any header line, loads
    back to the same table. *)
Theorem loadCityData_round_trip (hdr : JS.str) (T : list CityInfo) :
  ~ In newline hdr -> Forall CleanRecord T ->
  loadCityData (Returned (sourceOf hdr T)) = Returned T.
Proof.
  intros Hh HT. unfold loadCityData. cbn [bind]. cbv zeta.
  fold (dataLinesOf (sourceOf hdr T)).
  rewrite (@dataLinesOf_sourceOf hdr T Hh HT).
  induction HT as [|r T Hr HT IH]; [reflexivity|].
  cbn [List.map array_map]. rewrite (@parseLine_lineOf r Hr). cbn [bind].
  rewrite IH. reflexivity.
Qed.

(** X2. Every record the loader returns is clean: no field holds a comma
    or a newline or has white space at either end. *)
Theorem loadCityData_records_clean (content : JS.str)
  (rs : list CityInfo) :
  loadCityData (Returned content) = Returned rs ->
  Forall CleanRecord rs.
Proof.
  intros H. apply loadCityData_returned in H. destruct H as [-> Hall].
  apply Forall_forall. intros r Hr. apply in_map_iff in Hr.
  destruct Hr as (line & <- & Hin).
  apply recordOfLine_clean; [|apply Hall, Hin].
  apply (dataLinesOf_In content line Hin).
Qed.

(** X3. On a readable source the load throws exactly when some data line
    has fewer than three comma-separated fields, and then it throws a
    [TypeError]; otherwise it returns one record per data line. *)
Theorem loadCityData_failure (content : JS.str) :
  (forall e,
     loadCityData (Returned content) = Thrown e <->
     e = TypeError /\
     exists line, In line (dataLinesOf content) /\
                  length (JS.split comma line) < 3) /\
  (forall rs,
     loadCityData (Returned content) = Returned rs <->
     rs = List.map recordOfLine (dataLinesOf content) /\
     forall line, In line (dataLinesOf content) ->
                  3 <= length (JS.split comma line)).
Proof.
  split.
  - intros e. split.
    + intros H.
      destruct (fields_all_or_short (dataLinesOf content))
        as [Hall|(line & Hin & Hshort)].
      * exfalso.
        assert (E : loadCityData (Returned content) =
                    Returned (List.map recordOfLine (dataLinesOf content))).
        { unfold loadCityData. cbn [bind]. cbv zeta.
          apply array_map_all. intros l Hl.
          apply parseLine_three_fields, Hall, Hl. }
        congruence.
      * rewrite (loadCityData_short_row content line Hin Hshort) in H.
        split; [congruence|]. exists line. split; assumption.
    + intros (-> & line & Hin & Hshort).
      apply (loadCityData_short_row content line Hin Hshort).
  - intros rs. split; [apply loadCityData_returned|].
    intros (-> & Hall). unfold loadCityData. cbn [bind]. cbv zeta.
    apply array_map_all. intros l Hl.
    apply parseLine_three_fields, Hall, Hl.
Qed.

(** X4. White space at either end of a line, such as the carriage return
    of a CRLF line ending, changes neither the record the line is parsed
    to (or the exception) nor whether the line counts as blank. *)
Theorem parseLine_white_space (line : JS.str) (w : JS.char) :
  JS.isWhiteSpace w = true ->
  parseLine (line ++ [w]) = parseLine line /\
  parseLine (w :: line) = parseLine line /\
  JS.truthy (JS.trim (line ++ [w])) = JS.truthy (JS.trim line) /\
  JS.truthy (JS.trim (w :: line)) = JS.truthy (JS.trim line).
Proof.
  intros Hw. pose proof (white_not_comma w Hw) as Hc.
  split; [|split; [|split]].
  - apply parseLine_by_trimmed.
    destruct (@split_snoc comma w line Hc) as (fs & f & -> & ->).
    rewrite !map_app. cbn [List.map].
    rewrite (@trim_snoc_white f w Hw). reflexivity.
  - apply parseLine_by_trimmed.
    destruct (@split_cons comma w line Hc) as (f & fs & -> & ->).
    cbn [List.map]. rewrite (@trim_cons_white f w Hw). reflexivity.
  - rewrite (@trim_snoc_white line w Hw). reflexivity.
  - rewrite (@trim_cons_white line w Hw). reflexivity.
Qed.

(** X5. The first line of the source is never parsed: two sources that
    differ only in their first line load alike, so a source without a
    header line loses its first row; a source of one line loads to the
    empty table. *)
Theorem loadCityData_skips_first_line (h1 h2 rest : JS.str) :
  ~ In newline h1 -> ~ In newline h2 ->
  loadCityData (Returned (h1 ++ newline :: rest)) =
  loadCityData (Returned (h2 ++ newline :: rest)) /\
  loadCityData (Returned h1) = Returned [].
Proof.
  intros H1 H2. split.
  - rewrite (@loadCityData_first_line h1 rest H1).
    rewrite (@loadCityData_first_line h2 rest H2). reflexivity.
  - unfold loadCityData. cbn [bind]. cbv zeta.
    rewrite split_no_sep by exact H1. reflexivity.
Qed.

(** Closed goals about concrete strings. *)
Ltac not_in_string :=
  let H := fresh "H" in
  intro H; vm_compute in H; intuition discriminate.

Ltac clean_field :=
  split; [not_in_string|split; [not_in_string|reflexivity]].

Ltac clean_record := split; [clean_field|split; clean_field].

Lemma loadCityData_round_trip_witness :
  loadCityData (Returned (sourceOf Sample.header Sample.table)) =
  Returned Sample.table.
Proof.
  apply loadCityData_round_trip.
  - not_in_string.
  - repeat (apply Forall_cons; [clean_record|]). apply Forall_nil.
Defined.

Lemma loadCityData_records_clean_witness :
  Forall CleanRecord
    [mkCityInfo (JS.lit "x") (JS.lit "abc") (JS.lit "010");
     mkCityInfo (JS.lit "y") (JS.lit "12") (JS.lit "")].
Proof.
  apply (@loadCityData_records_clean Sample.messyCsv). reflexivity.
Defined.

Lemma parseLine_white_space_witness :
  parseLine (JS.lit "x,110000,010" ++ [13%N]) =
  parseLine (JS.lit "x,110000,010").
Proof.
  apply (@parseLine_white_space (JS.lit "x,110000,010") 13%N). reflexivity.
Defined.

Lemma loadCityData_skips_first_line_witness :
  loadCityData
    (Returned (JS.lit "x,110000,010" ++ newline :: JS.lit "y,120000,022")) =
  loadCityData
    (Returned (Sample.header ++ newline :: JS.lit "y,120000,022")).
Proof.
  apply (@loadCityData_skips_first_line (JS.lit "x,110000,010")
           Sample.header (JS.lit "y,120000,022")); not_in_string.
Defined.

(** ** More on the resolver *)

Lemma BeginsWith_firstn (n : nat) (a : JS.str) : BeginsWith a (firstn n a).
Proof. exists (skipn n a). symmetry. apply firstn_skipn. Qed.

Lemma BeginsWith_trans (a b c : JS.str) :
  BeginsWith a b -> BeginsWith b c -> BeginsWith a c.
Proof.
  intros [q ->] [q' ->]. exists (q' ++ q). symmetry. apply app_assoc.
Qed.

Lemma BeginsWith_city_province (a code : JS.str) :
  BeginsWith a (firstn 4 code) -> BeginsWith a (firstn 2 code).
Proof.
  intros H. apply BeginsWith_trans with (b := firstn 4 code); [exact H|].
  replace (firstn 2 code) with (firstn 2 (firstn 4 code))
    by (rewrite firstn_firstn; reflexivity).
  apply BeginsWith_firstn.
Qed.

Lemma EndsIn_app (p s : JS.str) : EndsIn (p ++ s) s.
Proof. exists p. reflexivity. Qed.

Lemma EndsIn_refl (s : JS.str) : EndsIn s s.
Proof. exists []. reflexivity. Qed.

Lemma provinceCodeOf_tier (code : JS.str) :
  getAdminLevel (provinceCodeOf code) = Province.
Proof. apply getAdminLevel_cases. apply EndsIn_app. Qed.

Lemma cityCodeOf_tier (code : JS.str) :
  getAdminLevel (cityCodeOf code) <> District.
Proof.
  intros H. apply getAdminLevel_cases in H. apply H. apply EndsIn_app.
Qed.

Lemma filter_filter_implied {A : Type} (f g : A -> bool) (l : list A) :
  (forall x, f x = true -> g x = true) ->
  filter f (filter g l) = filter f l.
Proof.
  intros H. induction l as [|x l IH]; [reflexivity|].
  cbn [filter]. destruct (g x) eqn:Eg.
  - cbn [filter]. rewrite IH. reflexivity.
  - destruct (f x) eqn:Ef; [|exact IH].
    rewrite (H x Ef) in Eg. discriminate.
Qed.

(** Where a record of an expansion comes from. *)
Lemma expansionOf_origin (T : list CityInfo) (m c : CityInfo) :
  In m T -> In c (expansionOf T m) ->
  In c T /\
  getAdminLevel (adcode c) <> Province /\
  BeginsWith (adcode c) (firstn 2 (adcode m)) /\
  (c = m \/ getAdminLevel (adcode c) = District).
Proof.
  intros Hm. unfold expansionOf.
  assert (F : forall k,
            BeginsWith (firstn k (adcode m)) (firstn 2 (adcode m)) ->
            In c (filter (isDistrictUnder (firstn k (adcode m))) T) ->
            In c T /\ getAdminLevel (adcode c) <> Province /\
            BeginsWith (adcode c) (firstn 2 (adcode m)) /\
            (c = m \/ getAdminLevel (adcode c) = District)).
  { intros k Hk H. apply filter_In in H. destruct H as [Hin Hd].
    apply isDistrictUnder_true in Hd. destruct Hd as [Hd Hb].
    repeat split; auto; [congruence|].
    apply BeginsWith_trans with (b := firstn k (adcode m)); assumption. }
  assert (S : m = c ->
            getAdminLevel (adcode m) <> Province ->
            In c T /\ getAdminLevel (adcode c) <> Province /\
            BeginsWith (adcode c) (firstn 2 (adcode m)) /\
            (c = m \/ getAdminLevel (adcode c) = District)).
  { intros <- Hp. repeat split; auto. apply BeginsWith_firstn. }
  destruct (getAdminLevel (adcode m)) eqn:E.
  - apply F. exists []. symmetry; apply app_nil_r.
  - destruct (filter (isDistrictUnder (firstn 4 (adcode m))) T) eqn:Ef.
    + intros [Hc|[]]. apply S; [exact Hc|congruence].
    + rewrite <- Ef. apply F.
      replace (firstn 2 (adcode m)) with (firstn 2 (firstn 4 (adcode m)))
        by (rewrite firstn_firstn; reflexivity).
      apply BeginsWith_firstn.
  - intros [Hc|[]]. apply S; [exact Hc|congruence].
Qed.

(** X6. [findProvince] answers with the first record, in table order,
    whose code is the first two code units of the argument followed by
    "0000", and such a record is of province tier; [findCity] answers with
    the first record whose code is the first four code units followed by
    "00", which is never of district tier. Each answers [undefined] exactly
    when no record carries that code. *)
Theorem findProvince_findCity_found (code : JS.str) (T : list CityInfo) :
  (forall p, findProvince code T = Some p <->
             FirstWithCode T (provinceCodeOf code) p) /\
  (forall p, findProvince code T = Some p ->
             In p T /\ getAdminLevel (adcode p) = Province) /\
  (findProvince code T = None <-> Absent T (provinceCodeOf code)) /\
  (forall c, findCity code T = Some c <->
             FirstWithCode T (cityCodeOf code) c) /\
  (forall c, findCity code T = Some c ->
             In c T /\ getAdminLevel (adcode c) <> District) /\
  (findCity code T = None <-> Absent T (cityCodeOf code)).
Proof.
  split; [intros p; apply findProvince_first|].
  split.
  { intros p H. apply findProvince_first, FirstWithCode_In in H.
    destruct H as [Hin ->]. split; [exact Hin|apply provinceCodeOf_tier]. }
  split; [apply findProvince_absent|].
  split; [intros c; apply findCity_first|].
  split; [|apply findCity_absent].
  intros c H. apply findCity_first, FirstWithCode_In in H.
  destruct H as [Hin ->]. split; [exact Hin|apply cityCodeOf_tier].
Qed.

(** X7. A district-tier record whose code begins with 11, 12, 31 or 50 and
    whose province record is in the table is named province + district:
    the city name never appears, whether the district is a county-level
    city or not and whether a city record exists or not. *)
Theorem buildFullName_municipality_district (r p : CityInfo)
  (T : list CityInfo) :
  getAdminLevel (adcode r) = District ->
  In (firstn 2 (adcode r)) [JS.lit "11"; JS.lit "12"; JS.lit "31"; JS.lit "50"] ->
  FirstWithCode T (provinceCodeOf (adcode r)) p ->
  isMunicipality p = true /\ buildFullName r T = name p ++ name r.
Proof.
  intros HD H2 Hp.
  assert (Hm : isMunicipality p = true).
  { apply isMunicipality_true. unfold Municipality.
    destruct (FirstWithCode_In Hp) as [_ ->]. unfold provinceCodeOf.
    destruct H2 as [<-|[<-|[<-|[<-|[]]]]]; simpl; auto. }
  split; [exact Hm|].
  apply findProvince_first in Hp.
  unfold buildFullName. rewrite HD, Hp. cbn [AdminLevel_eqb].
  destruct (isCountyLevelCity r); [reflexivity|].
  rewrite Hm. reflexivity.
Qed.

(** X8. The composed name always ends with the record's own name, and
    when no province record is found it is the record's own name, whatever
    the tier and even if a city record is there. *)
Theorem buildFullName_own_name (r : CityInfo) (T : list CityInfo) :
  EndsIn (buildFullName r T) (name r) /\
  (Absent T (provinceCodeOf (adcode r)) -> buildFullName r T = name r).
Proof.
  split.
  - unfold buildFullName.
    destruct (AdminLevel_eqb (getAdminLevel (adcode r)) Province);
      [apply EndsIn_refl|].
    destruct (findProvince (adcode r) T) as [p|];
      destruct (AdminLevel_eqb (getAdminLevel (adcode r)) City);
      try destruct (isMunicipality p); cbn [negb];
      try destruct (isCountyLevelCity r);
      try destruct (findCity (adcode r) T) as [c|];
      try apply EndsIn_refl; try apply EndsIn_app.
    all: rewrite app_assoc; apply EndsIn_app.
  - intros Ha. apply findProvince_absent in Ha.
    unfold buildFullName. rewrite Ha.
    destruct (AdminLevel_eqb (getAdminLevel (adcode r)) Province);
      [reflexivity|].
    destruct (AdminLevel_eqb (getAdminLevel (adcode r)) City);
      [reflexivity|].
    destruct (isCountyLevelCity r); reflexivity.
Qed.

(** X9. The districts found for a city are exactly those of the districts
    found for its province that begin with the city's four code units, in
    the same order; every record found is a district-tier record of the
    table. *)
Theorem findDistricts_city_in_province (code : JS.str)
  (T : list CityInfo) :
  findDistrictsInCity (JS.substring 0 4 code) T =
  findDistrictsInCity (JS.substring 0 4 code)
    (findDistrictsInProvince (JS.substring 0 2 code) T) /\
  incl (findDistrictsInCity (JS.substring 0 4 code) T)
       (findDistrictsInProvince (JS.substring 0 2 code) T) /\
  Forall (fun c => In c T /\ getAdminLevel (adcode c) = District)
         (findDistrictsInProvince (JS.substring 0 2 code) T).
Proof.
  rewrite !substring_0.
  change (findDistrictsInCity (firstn 4 code))
    with (filter (isDistrictUnder (firstn 4 code))).
  change (findDistrictsInProvince (firstn 2 code) T)
    with (filter (isDistrictUnder (firstn 2 code)) T).
  assert (I : forall x, isDistrictUnder (firstn 4 code) x = true ->
                        isDistrictUnder (firstn 2 code) x = true).
  { intros x H. apply isDistrictUnder_true in H. destruct H as [Hd Hb].
    apply isDistrictUnder_true. split; [exact Hd|].
    apply BeginsWith_city_province, Hb. }
  split; [|split].
  - symmetry. apply filter_filter_implied, I.
  - intros x Hx. apply filter_In in Hx. destruct Hx as [Hin Hx].
    apply filter_In. split; [exact Hin|apply I, Hx].
  - apply Forall_forall. intros c Hc. apply filter_In in Hc.
    destruct Hc as [Hin Hc]. apply isDistrictUnder_true in Hc.
    split; [exact Hin|apply Hc].
Qed.

(** ** More on the query engine *)

Lemma expandedMatchesOf_origin (T : list CityInfo) (q : query)
  (c : CityInfo) :
  In c (expandedMatchesOf T q) ->
  exists m,
    In m T /\ Contains (name m) (or_empty q) /\ In c (expansionOf T m).
Proof.
  rewrite expandedMatchesOf_eq.
  destruct (expandLoop_prefix T (matchesOf T (or_empty q)) [])
    as (n & _ & -> & _).
  cbn [app]. intros H. apply in_flat_map in H. destruct H as (m & Hm & Hc).
  apply In_firstn_In in Hm. apply matchesOf_In in Hm.
  exists m. tauto.
Qed.

(** X10. Every entry [listCity] returns is a record of the table with its
    name composed, code and service code unchanged; that record is a match
    (its name contains the query) or a district-tier record whose code
    begins with the first two code units of the code of a match. *)
Theorem listCity_provenance (T : list CityInfo) (q : query) :
  Forall (fun e =>
            exists r m,
              In r T /\ In m T /\ Contains (name m) (or_empty q) /\
              e = mkCityInfo (buildFullName r T) (adcode r) (citycode r) /\
              BeginsWith (adcode r) (firstn 2 (adcode m)) /\
              (r = m \/ getAdminLevel (adcode r) = District))
         (listCityFrom T q).
Proof.
  apply Forall_forall. intros e He. rewrite listCityFrom_eq in He.
  apply in_map_iff in He. destruct He as (r & <- & Hr).
  apply In_firstn_In, expandedMatchesOf_origin in Hr.
  destruct Hr as (m & Hm & Hq & Hr).
  destruct (expansionOf_origin T m r Hm Hr) as (HrT & _ & Hb & Hor).
  exists r, m. repeat split; assumption.
Qed.

(** X11. A query that no name contains gives the empty answer, without an
    error. *)
Theorem listCity_no_match (T : list CityInfo) (q : query) :
  (forall c, In c T -> ~ Contains (name c) (or_empty q)) ->
  listCityFrom T q = [].
Proof.
  intros H. rewrite listCityFrom_eq.
  destruct (expandedMatchesOf T q) as [|c l] eqn:E; [reflexivity|].
  assert (Hc : In c (expandedMatchesOf T q))
    by (rewrite E; left; reflexivity).
  apply expandedMatchesOf_origin in Hc. destruct Hc as (m & Hm & Hq & _).
  exfalso. exact (H m Hm Hq).
Qed.

Lemma listCity_no_match_witness :
  listCityFrom Sample.table (Str (JS.lit "zz")) = [].
Proof.
  apply listCity_no_match. intros c Hc Hq.
  apply includes_Contains in Hq.
  repeat (destruct Hc as [<-|Hc]; [discriminate Hq|]). exact Hc.
Defined.

(** X12. Every code [listCity] returns is found by [getCity]'s lookup: the
    answer is the first record of the table with that code, carrying the
    same code. *)
Theorem listCity_codes_resolve (T : list CityInfo) (q : query) :
  Forall (fun e =>
            exists c, getCityFrom T (adcode e) = Some c /\
                      adcode c = adcode e /\ In c T)
         (listCityFrom T q).
Proof.
  apply Forall_forall. intros e He. rewrite listCityFrom_eq in He.
  apply in_map_iff in He. destruct He as (r & <- & Hr).
  apply In_firstn_In, expandedMatchesOf_In in Hr. destruct Hr as [Hr _].
  cbn [composed adcode]. unfold getCityFrom.
  destruct (find (fun c => JS.eqb (adcode c) (adcode r)) T) as [c|] eqn:E.
  - exists c. apply find_some in E. destruct E as [Hin Heq].
    apply JS_eqb_eq in Heq. auto.
  - exfalso. apply (find_none _ _ E) in Hr. cbn in Hr.
    rewrite JS_eqb_refl in Hr. discriminate.
Qed.

Lemma In_two_split {A : Type} (l : list A) (x y : A) :
  In x l -> In y l -> x <> y ->
  exists a b c, l = a ++ x :: b ++ y :: c \/ l = a ++ y :: b ++ x :: c.
Proof.
  intros Hx Hy Hne. apply in_split in Hx. destruct Hx as (a & b & ->).
  apply in_app_or in Hy. destruct Hy as [Hy|[Hy|Hy]].
  - apply in_split in Hy. destruct Hy as (a1 & a2 & ->).
    exists a1, a2, b. right. rewrite <- app_assoc. reflexivity.
  - contradiction.
  - apply in_split in Hy. destruct Hy as (b1 & b2 & ->).
    exists a, b1, b2. left. reflexivity.
Qed.

Lemma flat_map_twice {A B : Type} (f : A -> list B) (a b c : list A)
  (x y : A) (d : B) :
  In d (f x) -> In d (f y) ->
  exists l1 l2 l3, flat_map f (a ++ x :: b ++ y :: c) = l1 ++ d :: l2 ++ d :: l3.
Proof.
  intros Hx Hy. apply in_split in Hx. destruct Hx as (x1 & x2 & Ex).
  apply in_split in Hy. destruct Hy as (y1 & y2 & Ey).
  exists (flat_map f a ++ x1), (x2 ++ flat_map f b ++ y1),
         (y2 ++ flat_map f c).
  rewrite flat_map_app. cbn [flat_map]. rewrite flat_map_app.
  cbn [flat_map]. rewrite Ex, Ey.
  repeat (rewrite <- app_assoc; cbn [app]). reflexivity.
Qed.

(** X13. [listCity] does not remove duplicates: when a province or city
    and one of its districts both match and fewer than ten results
    accumulate, the district is returned twice, once for each match. *)
Theorem listCity_repeats (T : list CityInfo) (q : query) (m d : CityInfo) :
  In m T -> In d T ->
  Contains (name m) (or_empty q) -> Contains (name d) (or_empty q) ->
  getAdminLevel (adcode m) <> District ->
  In d (expansionOf T m) ->
  getAdminLevel (adcode d) = District ->
  length (flat_map (expansionOf T) (matchesOf T (or_empty q))) < 10 ->
  exists l1 l2 l3,
    listCityFrom T q =
    l1 ++ composed T d :: l2 ++ composed T d :: l3.
Proof.
  intros Hm Hd Qm Qd Tm Hdm Td Hlt.
  assert (Hne : m <> d) by (intros ->; contradiction).
  assert (Hdd : In d (expansionOf T d))
    by (unfold expansionOf; rewrite Td; left; reflexivity).
  assert (Mm : In m (matchesOf T (or_empty q)))
    by (apply matchesOf_In; split; assumption).
  assert (Md : In d (matchesOf T (or_empty q)))
    by (apply matchesOf_In; split; assumption).
  assert (E : expandedMatchesOf T q =
              flat_map (expansionOf T) (matchesOf T (or_empty q))).
  { rewrite expandedMatchesOf_eq. apply (expandLoop_all T _ []). exact Hlt. }
  assert (R : exists l1 l2 l3,
            expandedMatchesOf T q = l1 ++ d :: l2 ++ d :: l3).
  { rewrite E.
    destruct (In_two_split _ Mm Md Hne) as (a & b & c & [-> | ->]);
      apply flat_map_twice; assumption. }
  destruct R as (l1 & l2 & l3 & R).
  rewrite listCityFrom_eq, firstn_all2 by (rewrite E; lia).
  rewrite R. exists (List.map (composed T) l1), (List.map (composed T) l2),
    (List.map (composed T) l3).
  rewrite map_app. cbn [List.map]. rewrite map_app. reflexivity.
Qed.

Lemma listCity_repeats_witness :
  exists l1 l2 l3,
    listCityFrom Sample.table Undefined =
    l1 ++ composed Sample.table Sample.xihu ::
    l2 ++ composed Sample.table Sample.xihu :: l3.
Proof.
  apply (@listCity_repeats Sample.table Undefined
           Sample.hangzhou Sample.xihu).
  - simpl; tauto.
  - simpl; tauto.
  - apply includes_Contains. reflexivity.
  - apply includes_Contains. reflexivity.
  - discriminate.
  - left. reflexivity.
  - reflexivity.
  - vm_compute. lia.
Defined.

Lemma FirstWithCode_unique_codes (T : list CityInfo) (r : CityInfo) :
  NoDup (List.map adcode T) -> In r T -> FirstWithCode T (adcode r) r.
Proof.
  intros Hnd Hin. apply in_split in Hin. destruct Hin as (T1 & T2 & ->).
  exists T1, T2. repeat split. intros c Hc E.
  rewrite map_app in Hnd. cbn [List.map] in Hnd.
  apply NoDup_remove_2 in Hnd. apply Hnd.
  apply in_or_app. left. rewrite <- E. apply in_map, Hc.
Qed.

(** X14. Looking up the code of a record of the table finds the first
    record with that code and does not throw; when the codes of the table
    are pairwise distinct it finds that very record. *)
Theorem getCity_found (readFileSync : outcome JS.str) (T : list CityInfo)
  (r : CityInfo) :
  loadCityData readFileSync = Returned T ->
  In r T ->
  (exists c, getCity readFileSync (adcode r) = Returned (Some c) /\
             FirstWithCode T (adcode r) c) /\
  (NoDup (List.map adcode T) ->
   getCity readFileSync (adcode r) = Returned (Some r)).
Proof.
  intros HL Hin. unfold getCity. rewrite HL. cbn [bind]. split.
  - destruct (getCityFrom T (adcode r)) as [c|] eqn:E.
    + exists c. split; [reflexivity|]. apply find_code_Some, E.
    + exfalso. apply find_code_None in E. exact (E r Hin eq_refl).
  - intros Hnd. f_equal. apply find_code_Some.
    apply FirstWithCode_unique_codes; assumption.
Qed.

Lemma getCity_found_witness :
  getCity (Returned Sample.csv) (JS.lit "330106") =
  Returned (Some Sample.xihu).
Proof.
  apply (@getCity_found (Returned Sample.csv) Sample.table Sample.xihu).
  - reflexivity.
  - simpl; tauto.
  - vm_compute.
    repeat (apply NoDup_cons; [not_in_string|]). apply NoDup_nil.
Defined.

(** ** Command-line arguments *)

Lemma obj_get_set_same (o : jsobject) (k : JS.str) (v : option JS.str) :
  obj_get (obj_set k v o) k = v.
Proof.
  unfold obj_get. induction o as [|[k0 v0] o IH]; cbn [obj_set find fst].
  - rewrite JS_eqb_refl. reflexivity.
  - destruct (JS.eqb k0 k) eqn:E; cbn [find fst]; rewrite E.
    + reflexivity.
    + exact IH.
Qed.

Lemma obj_get_set_other (o : jsobject) (k k' : JS.str)
  (v : option JS.str) :
  k' <> k -> obj_get (obj_set k' v o) k = obj_get o k.
Proof.
  intros Hne. unfold obj_get.
  induction o as [|[k0 v0] o IH]; cbn [obj_set find fst].
  - apply JS_eqb_neq in Hne. rewrite Hne. reflexivity.
  - destruct (JS.eqb k0 k') eqn:E; cbn [find fst].
    + apply JS_eqb_eq in E. subst k0. apply JS_eqb_neq in Hne.
      rewrite Hne. reflexivity.
    + destruct (JS.eqb k0 k); [reflexivity|exact IH].
Qed.

Lemma obj_get_assign_other (o : jsobject) (k k' : JS.str)
  (v : option JS.str) :
  k' <> k -> obj_get (obj_assign k' v o) k = obj_get o k.
Proof.
  intros Hne. unfold obj_assign.
  destruct (JS.eqb k' (JS.lit "__proto__")); [reflexivity|].
  apply obj_get_set_other, Hne.
Qed.

Lemma split_head_prefix (sep : JS.char) (s f : JS.str) (fs : list JS.str) :
  JS.split sep s = f :: fs -> BeginsWith s f.
Proof.
  revert f fs. induction s as [|c s IH]; intros f fs E.
  - injection E as <- _. exists []. reflexivity.
  - cbn [JS.split] in E. destruct (N.eqb c sep).
    + injection E as <- _. exists (c :: s). reflexivity.
    + destruct (JS.split sep s) as [|g gs] eqn:Es.
      * injection E as <- _. exists s. reflexivity.
      * injection E as <- _. destruct (IH g gs eq_refl) as [q ->].
        exists q. reflexivity.
Qed.

(** One round of the [forEach] of [parseArgs]. *)
Lemma parseArgs_fold (argv : list JS.str) :
  parseArgs argv =
  fold_left
    (fun args arg =>
       if JS.startsWith arg (JS.lit "--") then
         match JS.split equals (skipn 2 arg) with
         | key :: rest => obj_assign key (nth_error rest 0) args
         | [] => args
         end
       else args)
    (skipn 2 argv) [].
Proof. reflexivity. Qed.

(** Arguments that do not begin with [--key] leave the property [key] as
    it is. *)
Lemma parseArgs_rounds_keep (key : JS.str) (post : list JS.str)
  (o : jsobject) :
  (forall a, In a post -> ~ BeginsWith a (JS.lit "--" ++ key)) ->
  obj_get
    (fold_left
       (fun args arg =>
          if JS.startsWith arg (JS.lit "--") then
            match JS.split equals (skipn 2 arg) with
            | key :: rest => obj_assign key (nth_error rest 0) args
            | [] => args
            end
          else args)
       post o) key = obj_get o key.
Proof.
  revert o. induction post as [|a post IH]; intros o H; [reflexivity|].
  cbn [fold_left]. rewrite IH by (intros x Hx; apply H; right; exact Hx).
  destruct (JS.startsWith a (JS.lit "--")) eqn:Es; [|reflexivity].
  destruct (JS.split equals (skipn 2 a)) as [|k rest] eqn:Ek; [reflexivity|].
  apply obj_get_assign_other. intros ->.
  apply (H a (or_introl eq_refl)).
  apply startsWith_BeginsWith in Es. destruct Es as [q ->].
  cbn [JS.lit List.map list_ascii_of_string app skipn] in Ek.
  apply split_head_prefix in Ek. destruct Ek as [q' ->].
  exists q'. rewrite <- app_assoc. reflexivity.
Qed.

(** The property [key] of [args] is what the last argument beginning with
    [--key] gives it. *)
Lemma parseArgs_last (a0 a1 arg key : JS.str) (pre post rest : list JS.str) :
  BeginsWith arg (JS.lit "--") ->
  JS.split equals (skipn 2 arg) = key :: rest ->
  key <> JS.lit "__proto__" ->
  (forall a, In a post -> ~ BeginsWith a (JS.lit "--" ++ key)) ->
  obj_get (parseArgs (a0 :: a1 :: pre ++ arg :: post)) key =
  nth_error rest 0.
Proof.
  intros Hb Hs Hk Hpost. rewrite parseArgs_fold.
  change (skipn 2 (a0 :: a1 :: pre ++ arg :: post))
    with (pre ++ arg :: post).
  rewrite fold_left_app. cbn [fold_left].
  rewrite parseArgs_rounds_keep by exact Hpost. cbv beta.
  apply startsWith_BeginsWith in Hb. rewrite Hb, Hs.
  unfold obj_assign. apply JS_eqb_neq in Hk. rewrite Hk.
  apply obj_get_set_same.
Qed.

Lemma parseArgs_none (argv : list JS.str) (key : JS.str) :
  (forall a, In a (skipn 2 argv) -> ~ BeginsWith a (JS.lit "--" ++ key)) ->
  obj_get (parseArgs argv) key = None.
Proof.
  intros H. rewrite parseArgs_fold.
  rewrite parseArgs_rounds_keep by exact H. reflexivity.
Qed.

(** X15. The url given on the command line wins over the environment:
    [apiUrl] is the value of the last argument that begins with
    [--flomo_api_url], which is the text between its first [=] and its next
    [=] (what follows a second [=] is lost), provided this text is not
    empty. *)
Theorem apiUrl_from_argument (a0 a1 v tail : JS.str)
  (pre post : list JS.str) (env : JS.str -> option JS.str) :
  ~ In equals v -> v <> [] ->
  (tail = [] \/ exists t, tail = equals :: t) ->
  (forall a, In a post -> ~ BeginsWith a (JS.lit "--flomo_api_url")) ->
  apiUrl (a0 :: a1 :: pre ++ (JS.lit "--flomo_api_url=" ++ v ++ tail) :: post)
         env = v.
Proof.
  intros Hv Hne Htail Hpost. unfold apiUrl. cbv zeta.
  assert (Hs : exists rest,
            JS.split equals
              (skipn 2 (JS.lit "--flomo_api_url=" ++ v ++ tail)) =
            JS.lit "flomo_api_url" :: v :: rest).
  { change (skipn 2 (JS.lit "--flomo_api_url=" ++ v ++ tail))
      with (JS.lit "flomo_api_url" ++ equals :: v ++ tail).
    rewrite split_app_sep by not_in_string.
    destruct Htail as [->|(t & ->)].
    - rewrite app_nil_r, split_no_sep by exact Hv. exists []. reflexivity.
    - rewrite split_app_sep by exact Hv.
      exists (JS.split equals t). reflexivity. }
  destruct Hs as (rest & Hs).
  rewrite (@parseArgs_last a0 a1 _ (JS.lit "flomo_api_url") pre post
             (v :: rest)).
  - cbn [nth_error or_else]. destruct v; [congruence|reflexivity].
  - exists (JS.lit "flomo_api_url=" ++ v ++ tail). reflexivity.
  - exact Hs.
  - discriminate.
  - exact Hpost.
Qed.

Lemma apiUrl_from_argument_witness :
  apiUrl [JS.lit "node"; JS.lit "index.js";
          JS.lit "--flomo_api_url=https://flomoapp.com/iwh/x?a=b";
          JS.lit "--verbose"]
         (fun _ => Some (JS.lit "https://env.example/")) =
  JS.lit "https://flomoapp.com/iwh/x?a".
Proof.
  apply (@apiUrl_from_argument (JS.lit "node") (JS.lit "index.js")
           (JS.lit "https://flomoapp.com/iwh/x?a") (JS.lit "=b")
           [] [JS.lit "--verbose"]).
  - not_in_string.
  - discriminate.
  - right. exists (JS.lit "b"). reflexivity.
  - intros a [<-|[]] H. apply startsWith_BeginsWith in H. discriminate.
Defined.

(** X16. Without an argument beginning with [--flomo_api_url], and also
    when the last such argument has no value or an empty one (even if an
    earlier one gave a url), [apiUrl] is the environment variable
    [FLOMO_API_URL], or the empty string when that is unset. *)
Theorem apiUrl_fallback (argv : list JS.str)
  (env : JS.str -> option JS.str) :
  ((forall a, In a (skipn 2 argv) ->
              ~ BeginsWith a (JS.lit "--flomo_api_url")) \/
   (exists a0 a1 pre arg post,
      argv = a0 :: a1 :: pre ++ arg :: post /\
      (arg = JS.lit "--flomo_api_url" \/ arg = JS.lit "--flomo_api_url=") /\
      forall a, In a post -> ~ BeginsWith a (JS.lit "--flomo_api_url"))) ->
  apiUrl argv env =
  match env (JS.lit "FLOMO_API_URL") with
  | Some e => e
  | None => JS.lit ""
  end.
Proof.
  intros H. unfold apiUrl. cbv zeta.
  assert (G : obj_get (parseArgs argv) (JS.lit "flomo_api_url") = None \/
              obj_get (parseArgs argv) (JS.lit "flomo_api_url") = Some []).
  { destruct H as [H|(a0 & a1 & pre & arg & post & -> & Harg & Hpost)].
    - left. apply parseArgs_none. exact H.
    - destruct Harg as [-> | ->].
      + left.
        apply (@parseArgs_last a0 a1 _ (JS.lit "flomo_api_url") pre post []);
          [exists (JS.lit "flomo_api_url"); reflexivity|reflexivity
          |discriminate|exact Hpost].
      + right.
        apply (@parseArgs_last a0 a1 _ (JS.lit "flomo_api_url") pre post
                 [[]]);
          [exists (JS.lit "flomo_api_url="); reflexivity|reflexivity
          |discriminate|exact Hpost]. }
  destruct G as [-> | ->]; cbn [or_else JS.truthy];
    destruct (env (JS.lit "FLOMO_API_URL")) as [[|c e]|]; reflexivity.
Qed.

Lemma apiUrl_fallback_witness :
  apiUrl [JS.lit "node"; JS.lit "index.js";
          JS.lit "--flomo_api_url=https://flomoapp.com/iwh/x";
          JS.lit "--flomo_api_url="]
         (fun _ => Some (JS.lit "https://env.example/")) =
  JS.lit "https://env.example/".
Proof.
  apply (@apiUrl_fallback
           [JS.lit "node"; JS.lit "index.js";
            JS.lit "--flomo_api_url=https://flomoapp.com/iwh/x";
            JS.lit "--flomo_api_url="]).
  right.
  exists (JS.lit "node"), (JS.lit "index.js"),
    [JS.lit "--flomo_api_url=https://flomoapp.com/iwh/x"],
    (JS.lit "--flomo_api_url="), [].
  split; [reflexivity|]. split; [right; reflexivity|]. intros a [].
Defined.

(** ** Resources *)

Lemma startsWith_cons_head (c d : JS.char) (s t : JS.str) :
  JS.startsWith (c :: s) (d :: t) = true -> c = d.
Proof.
  intros H. apply startsWith_BeginsWith in H. destruct H as [q E].
  injection E as -> _. reflexivity.
Qed.

(** A string without a colon is one piece. *)
Lemma splitOn_no_colon (a cur : JS.str) :
  ~ In colon a -> splitOn (JS.lit "://") 0 cur a = [rev cur ++ a].
Proof.
  revert cur. induction a as [|c a IH]; intros cur H.
  - cbn [splitOn]. rewrite app_nil_r. reflexivity.
  - cbn [splitOn].
    destruct (JS.startsWith (c :: a) (JS.lit "://")) eqn:E.
    + apply startsWith_cons_head in E. exfalso. apply H. left.
      exact E.
    + rewrite IH by (intros Hin; apply H; right; exact Hin).
      cbn [rev]. rewrite <- app_assoc. reflexivity.
Qed.

(** A scheme without a colon, followed by "://", is the first piece. *)
Lemma splitOn_scheme (scheme a cur : JS.str) :
  ~ In colon scheme ->
  splitOn (JS.lit "://") 0 cur (scheme ++ JS.lit "://" ++ a) =
  (rev cur ++ scheme) :: splitOn (JS.lit "://") 0 [] a.
Proof.
  revert cur. induction scheme as [|c s IH]; intros cur H.
  - cbn [app]. rewrite app_nil_r.
    change (JS.lit "://" ++ a) with (colon :: 47%N :: 47%N :: a).
    cbn [splitOn].
    replace (JS.startsWith (colon :: 47%N :: 47%N :: a) (JS.lit "://"))
      with true; [reflexivity|].
    symmetry. apply startsWith_BeginsWith. exists a. reflexivity.
  - cbn [app splitOn].
    destruct (JS.startsWith (c :: s ++ JS.lit "://" ++ a) (JS.lit "://"))
      eqn:E.
    + apply startsWith_cons_head in E. exfalso. apply H. left.
      exact E.
    + rewrite IH by (intros Hin; apply H; right; exact Hin).
      cbn [rev]. rewrite <- app_assoc. reflexivity.
Qed.

Lemma splitString_uri (scheme a : JS.str) :
  ~ In colon scheme -> ~ In colon a ->
  splitString (JS.lit "://") (scheme ++ JS.lit "://" ++ a) = [scheme; a].
Proof.
  intros Hs Ha. unfold splitString.
  rewrite splitOn_scheme by exact Hs.
  rewrite splitOn_no_colon by exact Ha. reflexivity.
Qed.

(** Reading [scheme://code] once the table is loaded. *)
Lemma readResourceHandler_uri (readFileSync : outcome JS.str)
  (T : list CityInfo) (scheme a : JS.str) :
  loadCityData readFileSync = Returned T ->
  ~ In colon scheme -> ~ In colon a ->
  readResourceHandler readFileSync (scheme ++ JS.lit "://" ++ a) =
  match getCityFrom T a with
  | None => Rejected (ErrorWith (JS.lit "City not found"))
  | Some city =>
      Fulfilled
        [mkContent (JS.lit "city://" ++ adcode city) (JS.lit "text/plain")
                   (JS.lit "city: " ++ name city ++ JS.lit " adcode: " ++
                    adcode city)]
  end.
Proof.
  intros HL Hs Ha. unfold readResourceHandler. cbv zeta.
  rewrite (@splitString_uri scheme a Hs Ha). cbn [nth_error getCityOf].
  unfold getCity. rewrite HL. cbn [bind].
  destruct (getCityFrom T a); reflexivity.
Qed.

(** X17. Every resource the list handler advertises can be read back:
    if no code of the table holds a colon, the read handler, given the uri
    of a listed resource, fulfils with one entry that carries this uri and
    the name and code of the first record of the table with the listed
    code. There are at most one hundred resources. *)
Theorem resources_round_trip (readFileSync : outcome JS.str)
  (T : list CityInfo) :
  loadCityData readFileSync = Returned T ->
  Forall (fun r => ~ In colon (adcode r)) T ->
  exists resources,
    listResourcesHandler readFileSync = Fulfilled resources /\
    length resources <= 100 /\
    Forall (fun res =>
              exists c,
                FirstWithCode T (adcode c) c /\
                res_uri res = JS.lit "city://" ++ adcode c /\
                readResourceHandler readFileSync (res_uri res) =
                Fulfilled
                  [mkContent (res_uri res) (JS.lit "text/plain")
                             (JS.lit "city: " ++ name c ++
                              JS.lit " adcode: " ++ adcode c)])
           resources.
Proof.
  intros HL Hcol. unfold listResourcesHandler, listCity. rewrite HL.
  cbn [bind]. eexists. split; [reflexivity|]. split.
  - rewrite length_map. unfold listCityFrom. rewrite length_map.
    apply firstn_le_length.
  - apply Forall_forall. intros res Hres. apply in_map_iff in Hres.
    destruct Hres as (e & <- & He). cbn [res_uri].
    rewrite listCityFrom_eq in He. apply in_map_iff in He.
    destruct He as (r & <- & Hr). cbn [composed adcode].
    apply In_firstn_In, expandedMatchesOf_In in Hr. destruct Hr as [Hr _].
    assert (Hc : ~ In colon (adcode r))
      by (apply (proj1 (Forall_forall _ T) Hcol r Hr)).
    change (JS.lit "city://" ++ adcode r)
      with (JS.lit "city" ++ JS.lit "://" ++ adcode r).
    rewrite (@readResourceHandler_uri readFileSync T (JS.lit "city")
               (adcode r) HL) by (try not_in_string; exact Hc).
    destruct (getCityFrom T (adcode r)) as [c|] eqn:E.
    + exists c. apply find_code_Some in E.
      destruct (FirstWithCode_In E) as [_ Ec]. rewrite <- Ec in E.
      rewrite <- Ec. split; [exact E|]. split; reflexivity.
    + exfalso. apply find_code_None in E. exact (E r Hr eq_refl).
Qed.

Lemma resources_round_trip_witness :
  exists resources,
    listResourcesHandler (Returned Sample.csv) = Fulfilled resources /\
    length resources <= 100 /\
    Forall (fun res =>
              exists c,
                FirstWithCode Sample.table (adcode c) c /\
                res_uri res = JS.lit "city://" ++ adcode c /\
                readResourceHandler (Returned Sample.csv) (res_uri res) =
                Fulfilled
                  [mkContent (res_uri res) (JS.lit "text/plain")
                             (JS.lit "city: " ++ name c ++
                              JS.lit " adcode: " ++ adcode c)])
           resources.
Proof.
  apply (@resources_round_trip (Returned Sample.csv) Sample.table).
  - reflexivity.
  - repeat (apply Forall_cons; [not_in_string|]). apply Forall_nil.
Defined.

(** X18. Once the table is loaded, the read handler rejects with
    "City not found" a uri without a colon (there is no code to look up)
    and a uri [scheme://code] whose code no record carries. The scheme is
    not looked at: for a code of the table every [scheme://code] is
    answered, and the answer carries the uri [city://code]. *)
Theorem readResourceHandler_answers (readFileSync : outcome JS.str)
  (T : list CityInfo) :
  loadCityData readFileSync = Returned T ->
  (forall uri, ~ In colon uri ->
     readResourceHandler readFileSync uri =
     Rejected (ErrorWith (JS.lit "City not found"))) /\
  (forall scheme a, ~ In colon scheme -> ~ In colon a -> Absent T a ->
     readResourceHandler readFileSync (scheme ++ JS.lit "://" ++ a) =
     Rejected (ErrorWith (JS.lit "City not found"))) /\
  (forall scheme a c, ~ In colon scheme -> ~ In colon a ->
     FirstWithCode T a c ->
     readResourceHandler readFileSync (scheme ++ JS.lit "://" ++ a) =
     Fulfilled
       [mkContent (JS.lit "city://" ++ a) (JS.lit "text/plain")
                  (JS.lit "city: " ++ name c ++ JS.lit " adcode: " ++ a)]).
Proof.
  intros HL. split; [|split].
  - intros uri Hu. unfold readResourceHandler, splitString. cbv zeta.
    rewrite splitOn_no_colon by exact Hu. cbn [nth_error getCityOf].
    rewrite HL. reflexivity.
  - intros scheme a Hs Ha Habs.
    rewrite (@readResourceHandler_uri readFileSync T scheme a HL Hs Ha).
    apply find_code_None in Habs. unfold getCityFrom. rewrite Habs.
    reflexivity.
  - intros scheme a c Hs Ha Hc.
    rewrite (@readResourceHandler_uri readFileSync T scheme a HL Hs Ha).
    destruct (FirstWithCode_In Hc) as [_ Ec].
    apply find_code_Some in Hc. unfold getCityFrom. rewrite Hc, Ec.
    reflexivity.
Qed.

Lemma readResourceHandler_answers_witness :
  readResourceHandler (Returned Sample.csv) (JS.lit "330106") =
    Rejected (ErrorWith (JS.lit "City not found")) /\
  readResourceHandler (Returned Sample.csv) (JS.lit "city://999999") =
    Rejected (ErrorWith (JS.lit "City not found")) /\
  readResourceHandler (Returned Sample.csv) (JS.lit "note://330106") =
    Fulfilled
      [mkContent (JS.lit "city://330106") (JS.lit "text/plain")
                 (JS.lit "city: " ++ name Sample.xihu ++
                  JS.lit " adcode: 330106")].
Proof.
  destruct (@readResourceHandler_answers (Returned Sample.csv) Sample.table
              eq_refl) as (H1 & H2 & H3).
  split; [|split].
  - apply H1. not_in_string.
  - apply (H2 (JS.lit "city") (JS.lit "999999")); try not_in_string.
    apply find_code_None. reflexivity.
  - apply (H3 (JS.lit "note") (JS.lit "330106") Sample.xihu);
      try not_in_string.
    apply find_code_Some. reflexivity.
Defined.

(** X19. One data line with fewer than three fields takes the resources
    of the server down: the list handler and the read handler, whatever the
    uri, reject with the [TypeError] of the load. *)
Theorem resource_handlers_short_row (content line : JS.str) :
  In line (dataLinesOf content) ->
  length (JS.split comma line) < 3 ->
  listResourcesHandler (Returned content) = Rejected (Raised TypeError) /\
  forall uri,
    readResourceHandler (Returned content) uri = Rejected (Raised TypeError).
Proof.
  intros Hin Hshort.
  pose proof (loadCityData_short_row content line Hin Hshort) as HL.
  split.
  - unfold listResourcesHandler, listCity. rewrite HL. reflexivity.
  - intros uri. unfold readResourceHandler. cbv zeta.
    destruct (nth_error (splitString (JS.lit "://") uri) 1);
      cbn [getCityOf]; unfold getCity; rewrite HL; reflexivity.
Qed.

Lemma resource_handlers_short_row_witness :
  listResourcesHandler (Returned Sample.shortCsv) =
    Rejected (Raised TypeError) /\
  readResourceHandler (Returned Sample.shortCsv) (JS.lit "city://110000") =
    Rejected (Raised TypeError).
Proof.
  destruct (@resource_handlers_short_row Sample.shortCsv (JS.lit "x,110000"))
    as [H1 H2].
  - vm_compute. left. reflexivity.
  - vm_compute. lia.
  - split; [exact H1|apply H2].
Defined.

(** ** The documented limit of ten *)

Lemma expandLoop_districts (T ms acc : list CityInfo) :
  (forall m, In m ms -> getAdminLevel (adcode m) = District) ->
  length acc < 10 ->
  expandLoop ms T acc = acc ++ firstn (10 - length acc) ms.
Proof.
  revert acc. induction ms as [|m ms IH]; intros acc Hd Hlt.
  - rewrite firstn_nil, app_nil_r. reflexivity.
  - rewrite expandLoop_step.
    assert (Em : expansionOf T m = [m]).
    { unfold expansionOf. rewrite (Hd m (or_introl eq_refl)). reflexivity. }
    rewrite Em, length_app. cbn [length].
    destruct (Nat.leb_spec 10 (length acc + 1)) as [H|H].
    + replace (10 - length acc) with 1 by lia. reflexivity.
    + rewrite IH.
      * rewrite length_app. cbn [length].
        replace (10 - length acc) with (S (10 - (length acc + 1))) by lia.
        cbn [firstn]. rewrite <- app_assoc. reflexivity.
      * intros x Hx. apply Hd. right. exact Hx.
      * rewrite length_app. cbn [length]. lia.
Qed.

(** X20. When every record whose name contains the query is of district
    tier, [listCity] returns the first ten matches, composed, in table
    order: the limit of ten that the comments announce holds. *)
Theorem listCity_district_matches (T : list CityInfo) (q : query) :
  (forall c, In c T -> Contains (name c) (or_empty q) ->
             getAdminLevel (adcode c) = District) ->
  listCityFrom T q =
    List.map (composed T) (firstn 10 (matchesOf T (or_empty q))) /\
  length (listCityFrom T q) <= 10.
Proof.
  intros H.
  assert (E : listCityFrom T q =
              List.map (composed T) (firstn 10 (matchesOf T (or_empty q)))).
  { rewrite listCityFrom_eq, expandedMatchesOf_eq.
    rewrite expandLoop_districts.
    - cbn [app length]. rewrite firstn_firstn. reflexivity.
    - intros m Hm. apply matchesOf_In in Hm. apply H; tauto.
    - cbn [length]. lia. }
  split; [exact E|].
  rewrite E, length_map. apply firstn_le_length.
Qed.

Lemma listCity_district_matches_witness :
  listCityFrom Sample.table (Str [21306%N]) =
  List.map (composed Sample.table) [Sample.dongcheng; Sample.xihu].
Proof.
  apply (@listCity_district_matches Sample.table (Str [21306%N])).
  intros c Hc Hq. apply includes_Contains in Hq.
  repeat (destruct Hc as [<-|Hc];
          [first [reflexivity|discriminate Hq]|]).
  contradiction.
Defined.

(** ** Further instances on the sample data *)

Lemma loadCityData_failure_witness :
  loadCityData (Returned Sample.shortCsv) = Thrown TypeError.
Proof.
  apply (proj1 (@loadCityData_failure Sample.shortCsv)).
  split; [reflexivity|].
  exists (JS.lit "x,110000"). split.
  - vm_compute. left. reflexivity.
  - vm_compute. lia.
Defined.

Lemma findProvince_findCity_found_witness :
  In Sample.zhejiang Sample.table /\
  getAdminLevel (adcode Sample.zhejiang) = Province.
Proof.
  apply (proj1 (proj2
           (@findProvince_findCity_found (JS.lit "330106") Sample.table))).
  reflexivity.
Defined.

Lemma buildFullName_municipality_district_witness :
  isMunicipality Sample.beijing = true /\
  buildFullName Sample.dongcheng Sample.table =
  name Sample.beijing ++ name Sample.dongcheng.
Proof.
  apply (@buildFullName_municipality_district Sample.dongcheng
           Sample.beijing Sample.table).
  - reflexivity.
  - left. reflexivity.
  - apply find_code_Some. reflexivity.
Defined.

(** A district whose city is in the table but whose province is not. *)
Lemma buildFullName_own_name_witness :
  buildFullName Sample.xihu [Sample.hangzhou; Sample.xihu] =
  name Sample.xihu.
Proof.
  apply (proj2 (@buildFullName_own_name Sample.xihu
                  [Sample.hangzhou; Sample.xihu])).
  apply find_code_None. reflexivity.
Defined.
